(** * model-router: the routing decision engine and the request handlers

    A shallow embedding of [backend/src/router.ts] (the pure decision
    function [routeTask] over the static catalog [MODEL_PROFILE]), of
    [backend/src/server.ts] (the handlers of POST /api/tasks and
    POST /api/transcribe-and-route) and of [backend/src/upload.ts]
    (the handler of POST /api/upload), followed by the properties of the
    specification stated over these definitions. *)

From Stdlib Require Import ZArith List String Ascii Bool Lia DecimalString.
Import ListNotations.

Local Open Scope string_scope.
Local Open Scope Z_scope.

(** ** router.ts *)

Module Router.

(** [type ModelName = 'gpt_4_1' | 'gpt_4_1_mini' | 'rules_engine'] *)
Inductive ModelName : Type :=
| gpt_4_1
| gpt_4_1_mini
| rules_engine.

Definition ModelName_eqb (a b : ModelName) : bool :=
  match a, b with
  | gpt_4_1, gpt_4_1 => true
  | gpt_4_1_mini, gpt_4_1_mini => true
  | rules_engine, rules_engine => true
  | _, _ => false
  end.

(** The text a template literal prints for a model name. *)
Definition ModelName_text (m : ModelName) : string :=
  match m with
  | gpt_4_1 => "gpt_4_1"
  | gpt_4_1_mini => "gpt_4_1_mini"
  | rules_engine => "rules_engine"
  end.

(** [interface RouteInput].  The TypeScript types [TaskType] and [SlaTier]
    are erased when the program runs and the handler of POST /api/tasks
    passes [req.body] fields through unchecked, so both fields are the
    strings that reach the comparisons of [routeTask].  [maxCostCents] is
    an integer number of cents (the [max_cost_cents integer] column). *)
Record RouteInput : Type := mkRouteInput {
  taskType : string;
  sla : string;
  maxCostCents : Z
}.

(** [interface RouteOutput]: exactly these four fields. *)
Record RouteOutput : Type := mkRouteOutput {
  model : ModelName;
  estimatedCostCents : Z;
  estimatedLatencyMs : Z;
  reason : string
}.

Record Profile : Type := mkProfile {
  costPerTask : Z;
  latencyMs : Z
}.

(** [const MODEL_PROFILE: Record<ModelName, {costPerTask; latencyMs}>] *)
Definition MODEL_PROFILE (m : ModelName) : Profile :=
  match m with
  | gpt_4_1 => mkProfile 40 1800
  | gpt_4_1_mini => mkProfile 10 600
  | rules_engine => mkProfile 1 100
  end.

(** The three tiers of [type SlaTier]. *)
Definition known_tiers : list string :=
  ["low_latency"; "low_cost"; "high_quality"].

Definition is_known_tier (s : string) : bool :=
  existsb (String.eqb s) known_tiers.

(** The backend [routeTask] prefers for a tier, before the budget is
    looked at: its variable [candidate]. *)
Definition preferred (tier : string) : ModelName :=
  if (tier =? "high_quality")%string then gpt_4_1
  else if (tier =? "low_latency")%string then gpt_4_1_mini
  else rules_engine.

(** How a template literal prints an integer: decimal digits, with a
    leading minus sign for a negative one (the form JavaScript uses for
    every integer of magnitude below 10^21). *)
Definition show_int (z : Z) : string :=
  NilEmpty.string_of_int (Z.to_int z).

(** [export function routeTask(input: RouteInput): RouteOutput] *)
Definition routeTask (input : RouteInput) : RouteOutput :=
  let candidate :=
    if (input.(sla) =? "high_quality")%string then gpt_4_1
    else if (input.(sla) =? "low_latency")%string then gpt_4_1_mini
    else rules_engine in
  let chosen :=
    if (MODEL_PROFILE candidate).(costPerTask) >? input.(maxCostCents) then
      let chosen1 :=
        if ModelName_eqb candidate gpt_4_1 then gpt_4_1_mini else candidate in
      if (MODEL_PROFILE chosen1).(costPerTask) >? input.(maxCostCents)
      then rules_engine
      else chosen1
    else candidate in
  let profile := MODEL_PROFILE chosen in
  let reason :=
    "Selected " ++ ModelName_text chosen
    ++ " based on SLA=" ++ input.(sla)
    ++ ", taskType=" ++ input.(taskType)
    ++ ", maxCost=" ++ show_int input.(maxCostCents) ++ "c" in
  {| model := chosen;
     estimatedCostCents := profile.(costPerTask);
     estimatedLatencyMs := profile.(latencyMs);
     reason := reason |}.

(** The fallback chain of the README, most capable backend first:
    GPT-4 -> GPT-4 Mini -> Rules Engine. *)
Definition fallback_chain : list ModelName :=
  [gpt_4_1; gpt_4_1_mini; rules_engine].

(** The part of a chain that starts at a given backend. *)
Fixpoint chain_from (m : ModelName) (chain : list ModelName) : list ModelName :=
  match chain with
  | [] => []
  | x :: rest => if ModelName_eqb x m then x :: rest else chain_from m rest
  end.

Definition affordable (ceiling : Z) (m : ModelName) : bool :=
  (MODEL_PROFILE m).(costPerTask) <=? ceiling.

(** The first backend of the chain, from the preferred one on, whose cost
    fits the ceiling; the last resort [rules_engine] when none does. *)
Definition first_affordable (tier : string) (ceiling : Z) : ModelName :=
  match find (affordable ceiling) (chain_from (preferred tier) fallback_chain) with
  | Some m => m
  | None => rules_engine
  end.

(** Lines 28 to 37 of [routeTask] for any value of [maxCostCents].  All
    the choice reads of the ceiling are the comparisons
    [MODEL_PROFILE[chosen].costPerTask > maxCostCents], here the function
    [exceeds] of the cost: for a ceiling that is a number it is
    [cost > ceiling]; for [NaN], and for a ceiling that is missing
    ([undefined]), every comparison is [false]. *)
Definition choose_model (tier : string) (exceeds : Z -> bool) : ModelName :=
  let candidate := preferred tier in
  if exceeds (MODEL_PROFILE candidate).(costPerTask) then
    let chosen1 :=
      if ModelName_eqb candidate gpt_4_1 then gpt_4_1_mini else candidate in
    if exceeds (MODEL_PROFILE chosen1).(costPerTask)
    then rules_engine
    else chosen1
  else candidate.

(** The comparisons against an integer ceiling, and against a ceiling
    that is [NaN] or missing. *)
Definition exceeds_integer (ceiling : Z) (cost : Z) : bool := cost >? ceiling.

Definition exceeds_nan (cost : Z) : bool := false.

(** The first backend of the chain, from the preferred one on, whose cost
    the comparison does not find above the ceiling; the last resort
    [rules_engine] when every cost is above it. *)
Definition first_not_exceeded (tier : string) (exceeds : Z -> bool) : ModelName :=
  match find (fun m => negb (exceeds (MODEL_PROFILE m).(costPerTask)))
          (chain_from (preferred tier) fallback_chain) with
  | Some m => m
  | None => rules_engine
  end.

End Router.

Import Router.

(** ** What a handler does to the outside world

    The handlers talk to three collaborators: the Supabase row store and
    file storage, and the n8n webhook.  Every call answers with a
    [{ data, error }] pair (or, for [fetch], resolves or rejects); which of
    the two happens is not decided by the program, so each handler takes an
    environment that fixes the answer of every call it makes.  What the
    handlers leave behind is a trace of events, newest first: the rows they
    inserted, the updates they issued, the webhook posts that were answered,
    and the lines they printed with [console.error]. *)

Module Js.

(** A row's primary key ([uuid primary key default gen_random_uuid()]);
    the store hands out keys it has not used before, here from a counter. *)
Definition Id : Type := nat.

(** Completion of a block of statements: it ends normally with a value or
    it throws an error, of which the handlers only read [e.message]. *)
Inductive Completion (A : Type) : Type :=
| Normal (value : A)
| Throw (message : string).
Arguments Normal {A} value.
Arguments Throw {A} message.

(** The [{ data, error }] object a Supabase call resolves to. *)
Record DbResult (A : Type) : Type := mkDbResult {
  data : option A;
  error : option string
}.
Arguments mkDbResult {A} data error.
Arguments data {A} d.
Arguments error {A} d.

(** What the handler sends back: [res.json(body)] (status 200) or
    [res.status(code).json({ error: message })]. *)
Inductive Response (A : Type) : Type :=
| Ok200 (body : A)
| Failure (status : Z) (message : string).
Arguments Ok200 {A} body.
Arguments Failure {A} status message.

Definition is_ok {A : Type} (r : Response A) : bool :=
  match r with Ok200 _ => true | Failure _ _ => false end.

Record UploadedFileRow : Type := mkUploadedFileRow {
  file_id : Id;
  file_name : string;
  file_type : string;
  storage_path : string;
  file_status : string
}.

Record TranscriptRow : Type := mkTranscriptRow {
  transcript_row_id : Id;
  transcript_file_id : Id;
  transcript_status : string
}.

Record TaskRow : Type := mkTaskRow {
  task_id : Id;
  task_type : string;
  task_sla : string;
  input_text : option string;
  max_cost_cents : Z;
  transcript_id : option Id
}.

Record DecisionRow : Type := mkDecisionRow {
  decision_id : Id;
  decision_task_id : Id;
  chosen_model : ModelName;
  decision_reason : string;
  estimated_cost_cents : Z;
  estimated_latency_ms : Z
}.

Record RunRow : Type := mkRunRow {
  run_id : Id;
  run_task_id : Id;
  run_model : ModelName;
  token_input : Z;
  token_output : Z;
  latency_ms : Z;
  cost_cents : Z;
  success : bool
}.

Inductive Event : Type :=
| StorageUpload (path : string) (content : string) (contentType : string)
| InsertFile (row : UploadedFileRow)
| InsertTranscript (row : TranscriptRow)
| UpdateTranscript (id : Id) (text language : string) (duration_seconds : Z)
    (status : string)
| InsertTask (row : TaskRow)
| InsertDecision (row : DecisionRow)
| InsertRun (row : RunRow)
| UpdateTaskStatus (id : Id) (status : string)
| UpdateFileStatus (id : Id) (status : string)
| WebhookPost (url : string) (fileId transcriptId : Id)
| ConsoleError (line : string).

Record World : Type := mkWorld {
  events : list Event;
  next_id : Id
}.

Definition empty_world : World := mkWorld [] 0%nat.

Definition record (e : Event) (w : World) : World :=
  mkWorld (e :: w.(events)) w.(next_id).

(** Statements run in a world and complete normally or by a throw; what
    was written before a throw stays written (no handler opens a
    transaction or undoes a write). *)
Definition M (A : Type) : Type := World -> Completion A * World.

Definition ret {A : Type} (a : A) : M A := fun w => (Normal a, w).

Definition bind {A B : Type} (m : M A) (k : A -> M B) : M B :=
  fun w =>
    match m w with
    | (Normal a, w') => k a w'
    | (Throw e, w') => (Throw e, w')
    end.

Definition throw {A : Type} (message : string) : M A :=
  fun w => (Throw message, w).

Definition console_error (line : string) : M unit :=
  fun w => (Normal tt, record (ConsoleError line) w).

(** [await supabase.from(table).insert(row).select().single()]: on an
    error nothing is stored; otherwise the row is stored under a new key
    and comes back as [data]. *)
Definition db_insert {R : Type} (err : option string) (row : Id -> R)
    (ev : R -> Event) : M (DbResult R) :=
  fun w =>
    match err with
    | Some e => (Normal (mkDbResult None (Some e)), w)
    | None =>
        let r := row w.(next_id) in
        (Normal (mkDbResult (Some r) None),
         mkWorld (ev r :: w.(events)) (S w.(next_id)))
    end.

(** [await supabase.from(table).update(values).eq('id', id)] *)
Definition db_update (err : option string) (ev : Event) : M (option string) :=
  fun w =>
    match err with
    | Some e => (Normal (Some e), w)
    | None => (Normal None, record ev w)
    end.

(** [row.id] and the like on the [data] of a result: a [TypeError] when
    [data] is [null]. *)
Definition field_of {R : Type} (d : option R) : M R :=
  match d with
  | Some r => ret r
  | None => throw "Cannot read properties of null"
  end.

(** [try { body } catch (e) { console.error(e); res.status(500).json({ error: e.message }) }]
    where [body] ends by sending a response. *)
Definition try_catch {A : Type} (log_prefix : string) (body : M (Response A))
  : World -> Response A * World :=
  fun w =>
    match body w with
    | (Normal r, w') => (r, w')
    | (Throw e, w') =>
        (Failure 500 e, record (ConsoleError (log_prefix ++ e)) w')
    end.

End Js.

Import Js.

Declare Scope js_scope.
Delimit Scope js_scope with js.
Notation "x <- m ;; k" := (bind m (fun x => k))
  (at level 61, m at next level, right associativity) : js_scope.
Notation "m ;;; k" := (bind m (fun _ => k))
  (at level 61, right associativity) : js_scope.

(** ** server.ts *)

Module Server.

Local Open Scope js_scope.

(** [const { taskType, sla, inputText, maxCostCents, transcriptId } = req.body] *)
Record TasksBody : Type := mkTasksBody {
  body_taskType : string;
  body_sla : string;
  body_inputText : option string;
  body_maxCostCents : Z;
  body_transcriptId : option Id
}.

(** The answers of the collaborators during one POST /api/tasks, and the
    value of [Math.round(Math.random() * 200)], an integer from 0 to 200. *)
Record TasksEnv : Type := mkTasksEnv {
  tasks_insert_error : option string;
  decisions_insert_error : option string;
  runs_insert_error : option string;
  tasks_update_error : option string;
  jitter : Z
}.

(** [res.json({ task, decision, routing })] *)
Record TasksOk : Type := mkTasksOk {
  ok_task : TaskRow;
  ok_decision : option DecisionRow;
  ok_routing : RouteOutput
}.

(** [const routing = routeTask({ taskType, sla, maxCostCents })] inside a
    handler's [try] block.  The function has no [throw] statement, reads
    only its argument and the constant catalog, and indexes the catalog
    with one of its three keys: the call completes normally and leaves the
    world as it found it. *)
Definition call_routeTask (input : RouteInput) : M RouteOutput :=
  ret (routeTask input).

Definition decision_row (task : Id) (routing : RouteOutput) (id : Id)
  : DecisionRow :=
  {| decision_id := id;
     decision_task_id := task;
     chosen_model := routing.(model);
     decision_reason := routing.(reason);
     estimated_cost_cents := routing.(estimatedCostCents);
     estimated_latency_ms := routing.(estimatedLatencyMs) |}.

Definition run_row (task : Id) (routing : RouteOutput) (latency cost : Z)
    (id : Id) : RunRow :=
  {| run_id := id;
     run_task_id := task;
     run_model := routing.(model);
     token_input := 500;
     token_output := 200;
     latency_ms := latency;
     cost_cents := cost;
     success := true |}.

(** The row POST /api/tasks inserts into [tasks]: the fields of the
    request body as they came, [transcriptId ?? null] included. *)
Definition task_row (body : TasksBody) (id : Id) : TaskRow :=
  {| task_id := id;
     task_type := body.(body_taskType);
     task_sla := body.(body_sla);
     input_text := body.(body_inputText);
     max_cost_cents := body.(body_maxCostCents);
     transcript_id := body.(body_transcriptId) |}.

Definition route_input (body : TasksBody) : RouteInput :=
  {| taskType := body.(body_taskType);
     sla := body.(body_sla);
     maxCostCents := body.(body_maxCostCents) |}.

(** The body of the [try] block of [app.post('/api/tasks', ...)]. *)
Definition post_api_tasks_body (env : TasksEnv) (body : TasksBody)
  : M (Response TasksOk) :=
  t <- db_insert env.(tasks_insert_error) (task_row body) InsertTask ;;
  match error t with
  | Some taskErr => throw taskErr
  | None =>
      routing <- call_routeTask (route_input body) ;;
      task <- field_of (data t) ;;
      d <- db_insert env.(decisions_insert_error)
             (decision_row task.(task_id) routing) InsertDecision ;;
      match error d with
      | Some decErr => throw decErr
      | None =>
          let latency := routing.(estimatedLatencyMs) + env.(jitter) in
          let cost := routing.(estimatedCostCents) in
          r <- db_insert env.(runs_insert_error)
                 (run_row task.(task_id) routing latency cost) InsertRun ;;
          match error r with
          | Some runErr => console_error ("model_runs insert error: " ++ runErr)
          | None => ret tt
          end ;;;
          db_update env.(tasks_update_error)
            (UpdateTaskStatus task.(task_id) "completed") ;;;
          ret (Ok200 {| ok_task := task;
                        ok_decision := data d;
                        ok_routing := routing |})
      end
  end.

Definition post_api_tasks (env : TasksEnv) (body : TasksBody)
  : World -> Response TasksOk * World :=
  try_catch "" (post_api_tasks_body env body).

(** [const { taskType, ... } = req.body] at the head of a [try] block:
    [req.body] is [undefined] when no body was parsed, and destructuring
    it throws a [TypeError] that names the first property. *)
Definition destructure {B : Type} (first_property : string)
    (req_body : option B) : M B :=
  match req_body with
  | Some body => ret body
  | None =>
      throw ("Cannot destructure property '" ++ first_property
             ++ "' of 'req.body' as it is undefined.")
  end.

(** [app.post('/api/tasks', ...)] on a request whose body may not have
    been parsed. *)
Definition post_api_tasks_handler (env : TasksEnv) (req_body : option TasksBody)
  : World -> Response TasksOk * World :=
  try_catch ""
    (body <- destructure "taskType" req_body ;; post_api_tasks_body env body).

(** [const { fileId, transcriptId } = req.body]; [None] stands for a
    missing (falsy) field. *)
Record TranscribeBody : Type := mkTranscribeBody {
  body_fileId : option Id;
  body_transcript : option Id
}.

(** The answers of the collaborators during one resume.  [download_text]
    is the text of the downloaded file as [fileData.text()] (or the
    buffer's [toString('utf8')]) decodes it, kept as UTF-8; [None] when the
    download delivered no data. *)
Record TranscribeEnv : Type := mkTranscribeEnv {
  files_select_error : option string;
  download_error : option string;
  download_text : option string;
  transcripts_update_error : option string;
  tr_tasks_insert_error : option string;
  tr_decisions_insert_error : option string;
  tr_runs_insert_error : option string;
  files_update_error : option string;
  tr_jitter : Z
}.

(** [res.json({ status: 'ok', task, decision })] *)
Record TranscribeOk : Type := mkTranscribeOk {
  tr_status : string;
  tr_task : TaskRow;
  tr_decision : option DecisionRow
}.

(** The row of [uploaded_files] with a given key, as inserted. *)
Fixpoint find_file (id : Id) (evs : list Event) : option UploadedFileRow :=
  match evs with
  | [] => None
  | InsertFile row :: older =>
      if Nat.eqb row.(file_id) id then Some row else find_file id older
  | _ :: older => find_file id older
  end.

(** [await supabase.from('uploaded_files').select('*').eq('id', id).single()] *)
Definition select_file (err : option string) (id : Id)
  : M (DbResult UploadedFileRow) :=
  fun w =>
    match err with
    | Some e => (Normal (mkDbResult None (Some e)), w)
    | None => (Normal (mkDbResult (find_file id w.(events)) None), w)
    end.

(** Texts are kept as the bytes of their UTF-8 encoding.  The white space
    and line terminators [String.prototype.trim] removes are, in one byte:
    tab, line feed, vertical tab, form feed, carriage return and space
    (U+0009 to U+000D, U+0020). *)
Definition is_space (c : ascii) : bool :=
  let n := nat_of_ascii c in
  ((9 <=? n) && (n <=? 13) || (n =? 32))%nat.

(** In two bytes: the no-break space U+00A0 (C2 A0). *)
Definition is_space2 (c d : ascii) : bool :=
  ((nat_of_ascii c =? 194) && (nat_of_ascii d =? 160))%nat.

(** In three bytes: U+1680 (E1 9A 80); U+2000 to U+200A, the line and
    paragraph separators U+2028 and U+2029, and U+202F (E2 80 80..8A, A8,
    A9, AF); U+205F (E2 81 9F); U+3000 (E3 80 80); and the byte order mark
    U+FEFF (EF BB BF). *)
Definition is_space3 (c d e : ascii) : bool :=
  let c := nat_of_ascii c in
  let d := nat_of_ascii d in
  let e := nat_of_ascii e in
  ((c =? 225) && (d =? 154) && (e =? 128)
   || (c =? 226) && (d =? 128)
      && ((128 <=? e) && (e <=? 138) || (e =? 168) || (e =? 169) || (e =? 175))
   || (c =? 226) && (d =? 129) && (e =? 159)
   || (c =? 227) && (d =? 128) && (e =? 128)
   || (c =? 239) && (d =? 187) && (e =? 191))%nat.

(** [!text || text.trim().length === 0]: the text is empty or made of
    white space and line terminators only. *)
Fixpoint all_space (s : string) : bool :=
  match s with
  | EmptyString => true
  | String c rest =>
      if is_space c then all_space rest
      else
        match rest with
        | EmptyString => false
        | String d rest1 =>
            if is_space2 c d then all_space rest1
            else
              match rest1 with
              | EmptyString => false
              | String e rest2 => is_space3 c d e && all_space rest2
              end
        end
  end.

Definition newline : string := String (ascii_of_nat 10) EmptyString.

Definition message_or (err : option string) (default : string) : string :=
  match err with Some m => m | None => default end.

(** The body of the [try] block of
    [app.post('/api/transcribe-and-route', ...)]. *)
Definition post_api_transcribe_and_route_body (env : TranscribeEnv)
    (body : TranscribeBody) : M (Response TranscribeOk) :=
  match body.(body_fileId), body.(body_transcript) with
  | Some fileId, Some transcriptId =>
      f <- select_file env.(files_select_error) fileId ;;
      match error f, data f with
      | None, Some fileRow =>
          match env.(download_error), env.(download_text) with
          | None, Some text =>
              let transcriptText :=
                if all_space text
                then "Mock transcript for " ++ fileRow.(file_name)
                     ++ " stored at " ++ fileRow.(storage_path) ++ "."
                     ++ newline
                     ++ "This simulates a real transcript generated from the uploaded file."
                else text in
              trErr <- db_update env.(transcripts_update_error)
                         (UpdateTranscript transcriptId transcriptText "en"
                            3600 "ready") ;;
              match trErr with
              | Some m => throw ("Transcript update failed: " ++ m)
              | None =>
                  let taskType := "summary" in
                  let sla := "high_quality" in
                  let maxCostCents := 100 in
                  t <- db_insert env.(tr_tasks_insert_error)
                         (fun id => {| task_id := id;
                                       task_type := taskType;
                                       task_sla := sla;
                                       input_text := Some transcriptText;
                                       max_cost_cents := maxCostCents;
                                       transcript_id := Some transcriptId |})
                         InsertTask ;;
                  match error t, data t with
                  | None, Some task =>
                      routing <- call_routeTask
                                   {| Router.taskType := taskType;
                                      Router.sla := sla;
                                      Router.maxCostCents := maxCostCents |} ;;
                      d <- db_insert env.(tr_decisions_insert_error)
                             (decision_row task.(task_id) routing)
                             InsertDecision ;;
                      match error d with
                      | Some m =>
                          throw ("Routing decision insert failed: " ++ m)
                      | None =>
                          let latency :=
                            routing.(estimatedLatencyMs) + env.(tr_jitter) in
                          let cost := routing.(estimatedCostCents) in
                          r <- db_insert env.(tr_runs_insert_error)
                                 (run_row task.(task_id) routing latency cost)
                                 InsertRun ;;
                          match error r with
                          | Some m => throw ("Model run insert failed: " ++ m)
                          | None =>
                              db_update env.(files_update_error)
                                (UpdateFileStatus fileId "ready") ;;;
                              ret (Ok200 {| tr_status := "ok";
                                            tr_task := task;
                                            tr_decision := data d |})
                          end
                      end
                  | taskErr, _ =>
                      throw ("Task insert failed: " ++ message_or taskErr "no row")
                  end
              end
          | downloadErr, _ =>
              throw ("Download failed: " ++ message_or downloadErr "no data")
          end
      | fileErr, _ =>
          throw ("File not found: " ++ message_or fileErr "no row")
      end
  | _, _ => ret (Failure 400 "fileId and transcriptId are required")
  end.

Definition post_api_transcribe_and_route (env : TranscribeEnv)
    (body : TranscribeBody) : World -> Response TranscribeOk * World :=
  try_catch "transcribe-and-route error: "
    (post_api_transcribe_and_route_body env body).

(** [app.post('/api/transcribe-and-route', ...)] on a request whose body
    may not have been parsed. *)
Definition post_api_transcribe_and_route_handler (env : TranscribeEnv)
    (req_body : option TranscribeBody)
  : World -> Response TranscribeOk * World :=
  try_catch "transcribe-and-route error: "
    (body <- destructure "fileId" req_body ;;
     post_api_transcribe_and_route_body env body).

End Server.

(** ** upload.ts *)

Module Upload.

Local Open Scope js_scope.

(** [req.file], as multer's memory storage delivers it. *)
Record MulterFile : Type := mkMulterFile {
  originalname : string;
  mimetype : string;
  buffer : string
}.

(** What [await fetch(url, ...)] does: it resolves with a response of some
    HTTP status, or it rejects (no connection, bad URL). *)
Inductive FetchOutcome : Type :=
| Resolved (status : Z)
| Rejected (message : string).

Record UploadEnv : Type := mkUploadEnv {
  randomUUID : string;
  storage_upload_error : option string;
  files_insert_error : option string;
  transcripts_insert_error : option string;
  N8N_FILE_WEBHOOK_URL : option string;
  fetch_outcome : FetchOutcome
}.

(** [res.json({ file: fileRow, transcript: transcriptRow })] *)
Record UploadOk : Type := mkUploadOk {
  up_file : UploadedFileRow;
  up_transcript : option TranscriptRow
}.

(** [name.split('.').pop()]: what follows the last dot, or the whole name
    when it has none. *)
Fixpoint last_segment (acc s : string) : string :=
  match s with
  | EmptyString => acc
  | String c rest =>
      if Ascii.eqb c "."%char then last_segment EmptyString rest
      else last_segment (acc ++ String c EmptyString) rest
  end.

(** [await supabase.storage.from('airr-raw-files').upload(path, buffer, { contentType })] *)
Definition storage_upload (err : option string) (path content contentType : string)
  : M (option string) :=
  db_update err (StorageUpload path content contentType).

(** [await fetch(url, { method: 'POST', ... body: JSON.stringify({ fileId, transcriptId }) })] *)
Definition fetch_post (outcome : FetchOutcome) (url : string)
    (fileId transcriptId : Id) : M Z :=
  fun w =>
    match outcome with
    | Resolved status =>
        (Normal status, record (WebhookPost url fileId transcriptId) w)
    | Rejected message => (Throw message, w)
    end.

(** A string of [process.env] is truthy when it is set and not empty. *)
Definition truthy (v : option string) : option string :=
  match v with
  | Some EmptyString => None
  | other => other
  end.

(** The body of the [try] block of
    [router.post('/api/upload', upload.single('file'), ...)]. *)
Definition post_api_upload_body (env : UploadEnv) (file : option MulterFile)
  : M (Response UploadOk) :=
  match file with
  | None => ret (Failure 400 "No file uploaded")
  | Some file =>
      let id := env.(randomUUID) in
      let ext := last_segment EmptyString file.(originalname) in
      let storagePath := "raw/" ++ id ++ "." ++ ext in
      storageErr <- storage_upload env.(storage_upload_error) storagePath
                      file.(buffer) file.(mimetype) ;;
      match storageErr with
      | Some m => throw m
      | None =>
          f <- db_insert env.(files_insert_error)
                 (fun id => {| file_id := id;
                               file_name := file.(originalname);
                               file_type := file.(mimetype);
                               storage_path := storagePath;
                               file_status := "uploaded" |})
                 InsertFile ;;
          match error f with
          | Some fileErr => throw fileErr
          | None =>
              fileRow <- field_of (data f) ;;
              t <- db_insert env.(transcripts_insert_error)
                     (fun id => {| transcript_row_id := id;
                                   transcript_file_id := fileRow.(file_id);
                                   transcript_status := "processing" |})
                     InsertTranscript ;;
              match error t with
              | Some trErr => throw trErr
              | None =>
                  match truthy env.(N8N_FILE_WEBHOOK_URL) with
                  | Some url =>
                      transcriptRow <- field_of (data t) ;;
                      fetch_post env.(fetch_outcome) url fileRow.(file_id)
                        transcriptRow.(transcript_row_id) ;;;
                      ret tt
                  | None => ret tt
                  end ;;;
                  ret (Ok200 {| up_file := fileRow; up_transcript := data t |})
              end
          end
      end
  end.

Definition post_api_upload (env : UploadEnv) (file : option MulterFile)
  : World -> Response UploadOk * World :=
  try_catch "" (post_api_upload_body env file).

End Upload.

(** ** Sequences of requests *)

Module Api.

Import Server Upload.

Inductive Call : Type :=
| PostTasks (env : TasksEnv) (body : TasksBody)
| PostTranscribeAndRoute (env : TranscribeEnv) (body : TranscribeBody)
| PostUpload (env : UploadEnv) (file : option MulterFile).

Definition step (c : Call) (w : World) : World :=
  match c with
  | PostTasks env body => snd (post_api_tasks env body w)
  | PostTranscribeAndRoute env body =>
      snd (post_api_transcribe_and_route env body w)
  | PostUpload env file => snd (post_api_upload env file w)
  end.

(** The world after the calls were served one after the other, the first
    of the list first. *)
Definition serve (calls : list Call) (w : World) : World :=
  fold_left (fun w c => step c w) calls w.

(** The rows of [routing_decisions] and of [model_runs] that refer to a
    task, and whether the task was marked completed. *)
Definition decisions_of (task : Id) (evs : list Event) : list DecisionRow :=
  flat_map (fun e => match e with
                     | InsertDecision d =>
                         if Nat.eqb d.(decision_task_id) task then [d] else []
                     | _ => []
                     end) evs.

Definition runs_of (task : Id) (evs : list Event) : list RunRow :=
  flat_map (fun e => match e with
                     | InsertRun r =>
                         if Nat.eqb r.(run_task_id) task then [r] else []
                     | _ => []
                     end) evs.

Definition tasks_of (evs : list Event) : list TaskRow :=
  flat_map (fun e => match e with InsertTask t => [t] | _ => [] end) evs.

Definition marked_completed (task : Id) (evs : list Event) : bool :=
  existsb (fun e => match e with
                    | UpdateTaskStatus id status =>
                        Nat.eqb id task && String.eqb status "completed"
                    | _ => false
                    end) evs.

(** Every row of [model_runs] was inserted when a routing decision for its
    task was already stored (the trace is newest first). *)
Fixpoint runs_follow_decisions (evs : list Event) : Prop :=
  match evs with
  | [] => True
  | InsertRun r :: older =>
      decisions_of r.(run_task_id) older <> [] /\ runs_follow_decisions older
  | _ :: older => runs_follow_decisions older
  end.

(** What holds of the trace between two requests, [n] being a bound on the
    keys handed out so far. *)
Definition audit_invariant (n : Id) (evs : list Event) : Prop :=
  (forall t, In (InsertTask t) evs -> (t.(task_id) < n)%nat)
  /\ (forall d, In (InsertDecision d) evs -> (d.(decision_task_id) < n)%nat)
  /\ (forall t, (List.length (decisions_of t evs) <= 1)%nat)
  /\ runs_follow_decisions evs.

Definition world_ok (w : World) : Prop :=
  audit_invariant w.(next_id) w.(events).

(** The events that leave the three audit tables alone. *)
Definition off_audit (e : Event) : bool :=
  match e with
  | InsertTask _ | InsertDecision _ | InsertRun _ => false
  | _ => true
  end.

End Api.

(** ** server.ts: the listing for the dashboard *)

Module Listing.

(** A row of the listing query, which selects every column of the decision
    together with its task: the decision and, embedded through
    its foreign key [task_id], the task it belongs to ([null] when there
    is none). *)
Record DecisionWithTask : Type := mkDecisionWithTask {
  listed : DecisionRow;
  tasks : option TaskRow
}.

(** The row of [tasks] with a given key. *)
Fixpoint find_task (id : Id) (evs : list Event) : option TaskRow :=
  match evs with
  | [] => None
  | InsertTask row :: older =>
      if Nat.eqb row.(task_id) id then Some row else find_task id older
  | _ :: older => find_task id older
  end.

(** The rows of [routing_decisions], the one created last first
    ([order('created_at', { ascending: false })]). *)
Definition all_decisions (evs : list Event) : list DecisionRow :=
  flat_map (fun e => match e with InsertDecision d => [d] | _ => [] end) evs.

(** [await supabase.from('routing_decisions').select(decision with its task)
      .order('created_at', { ascending: false }).limit(50)] *)
Definition select_decisions (err : option string) (limit : nat) (w : World)
  : DbResult (list DecisionWithTask) :=
  match err with
  | Some e => mkDbResult None (Some e)
  | None =>
      mkDbResult
        (Some (firstn limit
                 (map (fun d => mkDecisionWithTask d
                                  (find_task d.(decision_task_id) w.(events)))
                    (all_decisions w.(events)))))
        None
  end.

(** [app.get('/api/routing-decisions', ...)]: no [try] block, the error of
    the query is answered with status 500, its data with [res.json(data)]. *)
Definition get_api_routing_decisions (err : option string) (w : World)
  : Response (option (list DecisionWithTask)) * World :=
  let r := select_decisions err 50 w in
  match error r with
  | Some e => (Failure 500 e, w)
  | None => (Ok200 (data r), w)
  end.

End Listing.

(** ** schema.sql: the enumerations of the status columns *)

Module Schema.

(** [create type task_status as enum (...)] *)
Definition task_status : list string :=
  ["pending"; "running"; "completed"; "failed"].

(** [create type file_status as enum (...)], the type of the status of
    [uploaded_files] and of [transcripts]. *)
Definition file_status_enum : list string :=
  ["uploaded"; "processing"; "ready"; "failed"].

Definition member (s : string) (values : list string) : bool :=
  existsb (String.eqb s) values.

(** Whether the status an event writes is a value of its column's type. *)
Definition status_in_schema (e : Event) : bool :=
  match e with
  | InsertFile row => member row.(file_status) file_status_enum
  | InsertTranscript row => member row.(transcript_status) file_status_enum
  | UpdateTranscript _ _ _ _ status => member status file_status_enum
  | UpdateTaskStatus _ status => member status task_status
  | UpdateFileStatus _ status => member status file_status_enum
  | _ => true
  end.

End Schema.

(** ** What the trace records, event by event *)

Module Trail.

Import Server Upload Api.

(** The decision [routeTask] makes for a stored task, as a row of
    [routing_decisions]. *)
Definition decision_of_task (t : TaskRow) (d : DecisionRow) : Prop :=
  let routing :=
    routeTask (mkRouteInput t.(task_type) t.(task_sla) t.(max_cost_cents)) in
  d.(decision_task_id) = t.(task_id)
  /\ d.(chosen_model) = routing.(model)
  /\ d.(decision_reason) = routing.(reason)
  /\ d.(estimated_cost_cents) = routing.(estimatedCostCents)
  /\ d.(estimated_latency_ms) = routing.(estimatedLatencyMs).

(** An execution record that carries out a decision. *)
Definition run_of_decision (d : DecisionRow) (r : RunRow) : Prop :=
  r.(run_task_id) = d.(decision_task_id)
  /\ r.(run_model) = d.(chosen_model)
  /\ r.(cost_cents) = d.(estimated_cost_cents)
  /\ r.(success) = true.

(** What was already in the trace when an event was recorded. *)
Definition event_ok (older : list Event) (e : Event) : Prop :=
  match e with
  | InsertDecision d =>
      exists t, In (InsertTask t) older /\ decision_of_task t d
  | InsertRun r =>
      exists d, In (InsertDecision d) older /\ run_of_decision d r
  | UpdateTaskStatus id status =>
      status = "completed" /\ decisions_of id older <> []
  | InsertFile f =>
      f.(file_status) = "uploaded"
      /\ exists content,
           In (StorageUpload f.(storage_path) content f.(file_type)) older
  | InsertTranscript tr =>
      tr.(transcript_status) = "processing"
      /\ exists f, In (InsertFile f) older /\ f.(file_id) = tr.(transcript_file_id)
  | UpdateTranscript id text language duration_seconds status =>
      all_space text = false /\ status = "ready"
  | UpdateFileStatus id status =>
      status = "ready"
      /\ (exists f, In (InsertFile f) older /\ f.(file_id) = id)
      /\ (exists r, In (InsertRun r) older)
  | WebhookPost url fileId transcriptId =>
      exists tr, In (InsertTranscript tr) older
                 /\ tr.(transcript_row_id) = transcriptId
                 /\ tr.(transcript_file_id) = fileId
  | InsertTask _ | StorageUpload _ _ _ | ConsoleError _ => True
  end.

Fixpoint trace_ok (evs : list Event) : Prop :=
  match evs with
  | [] => True
  | e :: older => event_ok older e /\ trace_ok older
  end.

(** The audit invariant, the record of every event, and distinct keys of
    the stored tasks. *)
Definition trail_ok (w : World) : Prop :=
  world_ok w
  /\ trace_ok w.(events)
  /\ NoDup (map task_id (tasks_of w.(events))).

(** The value [Math.round(Math.random() * 200)] can take. *)
Definition jitter_in_range (j : Z) : Prop := 0 <= j <= 200.

(** The jitter drawn while a call is served (an upload draws none). *)
Definition call_jitter (c : Call) : Z :=
  match c with
  | PostTasks env _ => env.(jitter)
  | PostTranscribeAndRoute env _ => env.(tr_jitter)
  | PostUpload _ _ => 0
  end.

(** The measured latency of a run lies between the catalog latency of its
    model and 200 ms more; its token counters are the fixed 500 and 200. *)
Definition run_measures_ok (r : RunRow) : Prop :=
  (MODEL_PROFILE r.(run_model)).(latencyMs) <= r.(latency_ms)
    <= (MODEL_PROFILE r.(run_model)).(latencyMs) + 200
  /\ r.(token_input) = 500
  /\ r.(token_output) = 200.

End Trail.

(** ** File names *)

Module FileNames.

(** A string without the character ['.']. *)
Fixpoint dotless (s : string) : bool :=
  match s with
  | EmptyString => true
  | String c rest => negb (Ascii.eqb c "."%char) && dotless rest
  end.

End FileNames.

(** ** Sample requests and collaborator answers *)

Module Samples.

Import Server Upload Api.

(** Every store call succeeds; the jitter drawn is 17. *)
Definition all_succeed : TasksEnv := mkTasksEnv None None None None 17.

(** Only the insert into [model_runs] reports an error. *)
Definition run_insert_fails : TasksEnv :=
  mkTasksEnv None None (Some "insert failed") None 17.

Definition summary_request : TasksBody :=
  mkTasksBody "summary" "high_quality" (Some "hello") 40 None.

Definition negative_ceiling : TasksBody :=
  mkTasksBody "summary" "low_cost" (Some "hello") (-5) None.

Definition without_text : TasksBody :=
  mkTasksBody "summary" "low_cost" None 5 None.

Definition recording : MulterFile :=
  mkMulterFile "call.rec.mp3" "audio/mpeg" "bytes".

Definition webhook : string := "http://localhost:5678/webhook/files".

(** The store accepts everything; nothing listens at the webhook. *)
Definition webhook_down : UploadEnv :=
  mkUploadEnv "u-1" None None None (Some webhook) (Rejected "fetch failed").

(** The store accepts everything; the webhook answers with status 500. *)
Definition webhook_answers_500 : UploadEnv :=
  mkUploadEnv "u-1" None None None (Some webhook) (Resolved 500).

(** The world after one upload that was answered. *)
Definition uploaded : World :=
  snd (post_api_upload webhook_answers_500 (Some recording) empty_world).

Definition resume : TranscribeBody :=
  mkTranscribeBody (Some 0%nat) (Some 1%nat).

Definition transcribe_succeeds : TranscribeEnv :=
  mkTranscribeEnv None None (Some "the text") None None None None None 17.

(** A download that holds a no-break space (U+00A0), a line separator
    (U+2028) and a space, as UTF-8. *)
Definition unicode_blank : string :=
  String (ascii_of_nat 194) (String (ascii_of_nat 160)
    (String (ascii_of_nat 226) (String (ascii_of_nat 128)
      (String (ascii_of_nat 168) " ")))).

Definition transcribe_blank_download : TranscribeEnv :=
  mkTranscribeEnv None None (Some unicode_blank) None None None None None 17.

Definition transcribe_run_insert_fails : TranscribeEnv :=
  mkTranscribeEnv None None (Some "the text") None None None
    (Some "insert failed") None 17.

End Samples.

Import Server Upload Api.

(** * Properties of the routing decision engine *)

Section RouterFacts.

Lemma gtb_false_le (a b : Z) : (a >? b) = false -> a <= b.
Proof. rewrite Z.gtb_ltb. intros H. apply Z.ltb_ge in H. exact H. Qed.

Lemma gtb_true_lt (a b : Z) : (a >? b) = true -> b < a.
Proof. rewrite Z.gtb_ltb. intros H. apply Z.ltb_lt in H. exact H. Qed.

(** The walk down the chain, one fact per backend it can end on. *)
Lemma routeTask_model_cases (input : RouteInput) :
  let m := model (routeTask input) in
  let c := maxCostCents input in
  (m = gpt_4_1 /\ preferred (sla input) = gpt_4_1 /\ 40 <= c)
  \/ (m = gpt_4_1_mini /\ preferred (sla input) <> rules_engine /\ 10 <= c
      /\ (preferred (sla input) = gpt_4_1 -> c < 40))
  \/ (m = rules_engine
      /\ (preferred (sla input) = rules_engine \/ c < 10)).
Proof.
  destruct input as [tt tier c]. unfold routeTask, preferred. cbn [sla maxCostCents taskType].
  destruct (tier =? "high_quality")%string; [|destruct (tier =? "low_latency")%string];
    cbn [MODEL_PROFILE costPerTask ModelName_eqb model].
  - destruct (40 >? c) eqn:H40.
    + apply gtb_true_lt in H40.
      destruct (10 >? c) eqn:H10; cbn [model].
      * apply gtb_true_lt in H10. right; right. split; [reflexivity | right; lia].
      * apply gtb_false_le in H10. right; left.
        repeat split; try discriminate; lia.
    + apply gtb_false_le in H40. left. repeat split; lia.
  - destruct (10 >? c) eqn:H10; cbn [MODEL_PROFILE costPerTask ModelName_eqb model].
    + apply gtb_true_lt in H10. right; right.
      split; [reflexivity | right; lia].
    + apply gtb_false_le in H10. right; left.
      repeat split; try discriminate; lia.
  - right; right. destruct (1 >? c); cbn [model];
      (split; [reflexivity | left; reflexivity]).
Qed.

(** [rules_engine] is the minimal-cost backend of the catalog. *)
Lemma rules_engine_is_cheapest (m : ModelName) :
  costPerTask (MODEL_PROFILE rules_engine) <= costPerTask (MODEL_PROFILE m).
Proof. destruct m; cbn; lia. Qed.

Lemma is_known_tier_cases (s : string) :
  is_known_tier s = true ->
  s = "low_latency" \/ s = "low_cost" \/ s = "high_quality".
Proof.
  unfold is_known_tier, known_tiers. cbn [existsb].
  rewrite !orb_true_iff, !String.eqb_eq. intuition discriminate.
Qed.

Lemma unknown_tier_preferred (s : string) :
  is_known_tier s = false -> preferred s = rules_engine.
Proof.
  unfold is_known_tier, known_tiers, preferred. cbn [existsb].
  rewrite !orb_false_iff. intros (Hll & Hlc & Hhq & _).
  rewrite Hhq, Hll. reflexivity.
Qed.

End RouterFacts.

Lemma routeTask_estimates (input : RouteInput) :
  estimatedCostCents (routeTask input)
  = costPerTask (MODEL_PROFILE (model (routeTask input)))
  /\ estimatedLatencyMs (routeTask input)
     = latencyMs (MODEL_PROFILE (model (routeTask input))).
Proof. split; reflexivity. Qed.

(** C1.  For each of the three SLA tiers and every integer budget ceiling
    that is at least the cost of the minimal-cost backend (the cost 1 of
    [rules_engine]), [routeTask] returns a backend whose catalog
    [costPerTask] does not exceed the ceiling. *)
Theorem routeTask_within_budget (input : RouteInput) :
  is_known_tier (sla input) = true ->
  costPerTask (MODEL_PROFILE rules_engine) <= maxCostCents input ->
  costPerTask (MODEL_PROFILE (model (routeTask input))) <= maxCostCents input.
Proof.
  intros _ Hmin. cbn [MODEL_PROFILE costPerTask] in Hmin.
  destruct (routeTask_model_cases input) as [(Hm & _ & Hc) | [(Hm & _ & Hc & _) | (Hm & _)]];
    rewrite Hm; cbn [MODEL_PROFILE costPerTask]; lia.
Qed.

Lemma routeTask_within_budget_witness :
  costPerTask
    (MODEL_PROFILE (model (routeTask (mkRouteInput "summary" "low_latency" 7))))
  <= 7.
Proof.
  apply (routeTask_within_budget (mkRouteInput "summary" "low_latency" 7)).
  - reflexivity.
  - cbn. lia.
Defined.

(** C2.  With SLA [high_quality], [routeTask] returns [gpt_4_1] at a
    ceiling of 40, falls back to [gpt_4_1_mini] at a ceiling of 39, and at
    a ceiling of zero or below returns [rules_engine]; the call completes
    normally (nothing is thrown), whatever the task type. *)
Theorem routeTask_high_quality_ceilings :
  (forall kind, model (routeTask (mkRouteInput kind "high_quality" 40)) = gpt_4_1)
  /\ (forall kind,
        model (routeTask (mkRouteInput kind "high_quality" 39)) = gpt_4_1_mini)
  /\ (forall kind ceiling w, ceiling <= 0 ->
        exists out,
          call_routeTask (mkRouteInput kind "high_quality" ceiling) w
          = (Normal out, w)
          /\ model out = rules_engine).
Proof.
  split; [reflexivity | split; [reflexivity |]].
  intros kind ceiling w Hc. eexists. split; [reflexivity |].
  destruct (routeTask_model_cases (mkRouteInput kind "high_quality" ceiling))
    as [(_ & _ & H) | [(_ & _ & H & _) | (Hm & _)]];
    cbn [maxCostCents] in *; try lia. exact Hm.
Qed.

Lemma routeTask_high_quality_ceilings_witness :
  exists out,
    call_routeTask (mkRouteInput "summary" "high_quality" (-7)) empty_world
    = (Normal out, empty_world)
    /\ model out = rules_engine.
Proof.
  apply (proj2 (proj2 routeTask_high_quality_ceilings)). lia.
Defined.

(** C3, as the code has it.  For every input whose SLA tier is not one of
    the three known tiers, [routeTask] throws nothing: the call completes
    normally and takes the branch of [low_cost], so it returns
    [rules_engine] with the estimates 1 and 100 of the catalog, whatever
    the budget ceiling. *)
Theorem routeTask_unknown_tier_defaults (input : RouteInput) (w : World) :
  is_known_tier (sla input) = false ->
  call_routeTask input w = (Normal (routeTask input), w)
  /\ model (routeTask input) = rules_engine
  /\ estimatedCostCents (routeTask input) = 1
  /\ estimatedLatencyMs (routeTask input) = 100.
Proof.
  intros Hu. apply unknown_tier_preferred in Hu.
  assert (Hm : model (routeTask input) = rules_engine).
  { destruct (routeTask_model_cases input)
      as [(_ & Hp & _) | [(_ & Hp & _) | (Hm & _)]]; congruence. }
  split; [reflexivity |]. split; [exact Hm |].
  destruct (routeTask_estimates input) as [Hc Hl].
  rewrite Hc, Hl, Hm. split; reflexivity.
Qed.

Lemma routeTask_unknown_tier_defaults_witness :
  call_routeTask (mkRouteInput "summary" "premium" 100) empty_world
  = (Normal (routeTask (mkRouteInput "summary" "premium" 100)), empty_world)
  /\ model (routeTask (mkRouteInput "summary" "premium" 100)) = rules_engine
  /\ estimatedCostCents (routeTask (mkRouteInput "summary" "premium" 100)) = 1
  /\ estimatedLatencyMs (routeTask (mkRouteInput "summary" "premium" 100)) = 100.
Proof.
  apply (routeTask_unknown_tier_defaults (mkRouteInput "summary" "premium" 100)).
  reflexivity.
Defined.

(** C3, as the specification states it, fails: the tier ["premium"] is
    none of the three known tiers, yet the call of [routeTask] completes
    normally and answers with the backend [rules_engine]; no error is
    thrown. *)
Lemma routeTask_unknown_tier_counterexample :
  is_known_tier "premium" = false
  /\ call_routeTask (mkRouteInput "summary" "premium" 100) empty_world
     = (Normal
          (mkRouteOutput rules_engine 1 100
             "Selected rules_engine based on SLA=premium, taskType=summary, maxCost=100c"),
        empty_world)
  /\ (forall message,
        call_routeTask (mkRouteInput "summary" "premium" 100) empty_world
        <> (Throw message, empty_world)).
Proof.
  split; [reflexivity | split; [reflexivity |]].
  intros message H. discriminate H.
Qed.

(** C9.  [routeTask] is deterministic and pure: two calls whose inputs
    agree on [taskType], [sla] and [maxCostCents] return outputs that agree
    on [model], [estimatedCostCents], [estimatedLatencyMs] and [reason];
    made inside a handler, the call gives the same completion in any two
    worlds and leaves each world as it was (no I/O, no hidden state). *)
Theorem routeTask_deterministic (a b : RouteInput) :
  taskType a = taskType b ->
  sla a = sla b ->
  maxCostCents a = maxCostCents b ->
  (model (routeTask a) = model (routeTask b)
   /\ estimatedCostCents (routeTask a) = estimatedCostCents (routeTask b)
   /\ estimatedLatencyMs (routeTask a) = estimatedLatencyMs (routeTask b)
   /\ reason (routeTask a) = reason (routeTask b))
  /\ (forall w1 w2,
        fst (call_routeTask a w1) = fst (call_routeTask b w2)
        /\ snd (call_routeTask a w1) = w1
        /\ snd (call_routeTask b w2) = w2).
Proof.
  destruct a as [ta sa ca], b as [tb sb cb]. cbn [taskType sla maxCostCents].
  intros -> -> ->. repeat split.
Qed.

Lemma routeTask_deterministic_witness :
  reason (routeTask (mkRouteInput "extraction" "low_latency" 9))
  = reason (routeTask (mkRouteInput "extraction" "low_latency" 9)).
Proof.
  apply (routeTask_deterministic
           (mkRouteInput "extraction" "low_latency" 9)
           (mkRouteInput "extraction" "low_latency" 9));
    reflexivity.
Defined.

(** C10.  For every input, the output of [routeTask] agrees with the
    catalog: the model is one of [gpt_4_1], [gpt_4_1_mini] and
    [rules_engine], and the two estimates are the [costPerTask] and the
    [latencyMs] of [MODEL_PROFILE] for that model.  The estimate can exceed
    [maxCostCents] (it does for a ceiling of 0), and the output is made of
    its four fields only: it carries no over-budget flag. *)
Theorem routeTask_output_matches_catalog :
  (forall input,
     In (model (routeTask input)) [gpt_4_1; gpt_4_1_mini; rules_engine]
     /\ estimatedCostCents (routeTask input)
        = costPerTask (MODEL_PROFILE (model (routeTask input)))
     /\ estimatedLatencyMs (routeTask input)
        = latencyMs (MODEL_PROFILE (model (routeTask input))))
  /\ (forall kind tier ceiling, ceiling <= 0 ->
        maxCostCents (mkRouteInput kind tier ceiling)
        < estimatedCostCents (routeTask (mkRouteInput kind tier ceiling)))
  /\ (forall out : RouteOutput,
        out = mkRouteOutput (model out) (estimatedCostCents out)
                (estimatedLatencyMs out) (reason out)).
Proof.
  split; [| split].
  - intros input. split; [| apply routeTask_estimates].
    destruct (model (routeTask input)); cbn; auto.
  - intros kind tier ceiling Hc.
    destruct (routeTask_estimates (mkRouteInput kind tier ceiling)) as [-> _].
    cbn [maxCostCents].
    destruct (model (routeTask (mkRouteInput kind tier ceiling)));
      cbn [MODEL_PROFILE costPerTask]; lia.
  - intros [m c l r]. reflexivity.
Qed.

(** * Properties of the request handlers *)

Local Open Scope list_scope.

(** ** The audit invariant, event by event *)

Section AuditInvariant.

Variable n : Id.
Variable evs : list Event.
Hypothesis Hinv : audit_invariant n evs.

Lemma audit_weaken (m : Id) : (n <= m)%nat -> audit_invariant m evs.
Proof.
  destruct Hinv as (Ht & Hd & Hu & Hr). intros Hle.
  repeat split; auto.
  - intros t Hin. specialize (Ht t Hin). lia.
  - intros d Hin. specialize (Hd d Hin). lia.
Qed.

Lemma fresh_undecided (t : Id) : (n <= t)%nat -> decisions_of t evs = [].
Proof.
  destruct Hinv as (_ & Hd & _ & _). intros Hle.
  clear Hinv. induction evs as [| e rest IH]; [reflexivity |].
  cbn [decisions_of flat_map].
  fold (decisions_of t rest).
  rewrite IH by (intros d Hin; apply Hd; right; exact Hin).
  destruct e; try reflexivity.
  pose proof (Hd row (or_introl eq_refl)) as Hlt.
  destruct (Nat.eqb_spec (decision_task_id row) t); [lia | reflexivity].
Qed.

Lemma audit_off (e : Event) :
  off_audit e = true -> audit_invariant n (e :: evs).
Proof.
  destruct Hinv as (Ht & Hd & Hu & Hr). intros He.
  repeat split.
  - intros t [Heq | Hin]; [subst e; discriminate He | auto].
  - intros d [Heq | Hin]; [subst e; discriminate He | auto].
  - intros t. specialize (Hu t). destruct e; try discriminate He; exact Hu.
  - destruct e; try discriminate He; exact Hr.
Qed.

Lemma audit_task (t : TaskRow) :
  (task_id t < n)%nat -> audit_invariant n (InsertTask t :: evs).
Proof.
  destruct Hinv as (Ht & Hd & Hu & Hr). intros Hlt.
  repeat split; auto.
  - intros t' [Heq | Hin]; [injection Heq as <-; exact Hlt | auto].
  - intros d [Heq | Hin]; [discriminate Heq | auto].
Qed.

Lemma audit_decision (d : DecisionRow) :
  (decision_task_id d < n)%nat ->
  decisions_of (decision_task_id d) evs = [] ->
  audit_invariant n (InsertDecision d :: evs).
Proof.
  destruct Hinv as (Ht & Hd & Hu & Hr). intros Hlt Hnone.
  repeat split; auto.
  - intros t [Heq | Hin]; [discriminate Heq | auto].
  - intros d' [Heq | Hin]; [injection Heq as <-; exact Hlt | auto].
  - intros t. cbn [decisions_of flat_map]. fold (decisions_of t evs).
    destruct (Nat.eqb_spec (decision_task_id d) t) as [<- |].
    + rewrite Hnone. cbn. lia.
    + apply Hu.
Qed.

Lemma audit_run (r : RunRow) :
  decisions_of (run_task_id r) evs <> [] ->
  audit_invariant n (InsertRun r :: evs).
Proof.
  destruct Hinv as (Ht & Hd & Hu & Hr). intros Hsome.
  repeat split; auto.
  - intros t [Heq | Hin]; [discriminate Heq | auto].
  - intros d [Heq | Hin]; [discriminate Heq | auto].
Qed.

End AuditInvariant.

(** ** Each handler keeps the audit invariant *)

Ltac audit_leaf :=
  match goal with
  | H : audit_invariant ?n ?evs |- audit_invariant _ ?evs =>
      apply (audit_weaken n evs H); cbn; lia
  end.

Ltac audit_fresh :=
  match goal with
  | H : audit_invariant ?n ?evs |- decisions_of _ _ = [] =>
      cbn [decisions_of flat_map app]; apply (fresh_undecided n evs H); cbn; lia
  end.

Ltac audit_steps :=
  repeat first
    [ audit_leaf
    | apply audit_off; [| reflexivity]
    | apply audit_task; [| cbn; lia]
    | apply audit_decision; [| cbn; lia | audit_fresh]
    | apply audit_run;
      [| cbn [decisions_of flat_map app run_row run_task_id decision_row
              decision_task_id];
         rewrite Nat.eqb_refl; discriminate ] ].

Lemma post_api_tasks_keeps_audit (env : TasksEnv) (body : TasksBody) (w : World) :
  world_ok w -> world_ok (snd (post_api_tasks env body w)).
Proof.
  destruct w as [evs n]. unfold world_ok. cbn [events next_id]. intros H.
  destruct env as [e1 e2 e3 e4 j].
  unfold post_api_tasks, try_catch, post_api_tasks_body, call_routeTask,
    bind, ret, throw, db_insert, db_update, field_of, console_error, record.
  destruct e1, e2, e3, e4; cbn -[routeTask audit_invariant task_row];
    audit_steps.
Qed.

Lemma post_api_transcribe_and_route_keeps_audit
    (env : TranscribeEnv) (body : TranscribeBody) (w : World) :
  world_ok w -> world_ok (snd (post_api_transcribe_and_route env body w)).
Proof.
  destruct w as [evs n]. unfold world_ok. cbn [events next_id]. intros H.
  destruct env as [e1 e2 dl e3 e4 e5 e6 e7 j], body as [fid tid].
  unfold post_api_transcribe_and_route, try_catch,
    post_api_transcribe_and_route_body, call_routeTask, select_file,
    bind, ret, throw, db_insert, db_update, field_of, console_error, record.
  destruct fid, tid; cbn -[routeTask audit_invariant all_space append];
    try audit_leaf.
  destruct e1; cbn -[routeTask audit_invariant all_space append];
    [audit_steps |].
  destruct (find_file i evs); cbn -[routeTask audit_invariant all_space append];
    [| audit_steps].
  destruct e2, dl; cbn -[routeTask audit_invariant all_space append];
    try solve [audit_steps].
  destruct e3, e4, e5, e6, e7; cbn -[routeTask audit_invariant all_space append];
    audit_steps.
Qed.

Lemma post_api_upload_keeps_audit
    (env : UploadEnv) (file : option MulterFile) (w : World) :
  world_ok w -> world_ok (snd (post_api_upload env file w)).
Proof.
  destruct w as [evs n]. unfold world_ok. cbn [events next_id]. intros H.
  destruct env as [u e1 e2 e3 url out].
  unfold post_api_upload, try_catch, post_api_upload_body, storage_upload,
    fetch_post, truthy, bind, ret, throw, db_insert, db_update, field_of,
    console_error, record.
  destruct file as [file |]; cbn -[audit_invariant last_segment append];
    [| audit_leaf].
  destruct e1, e2, e3; cbn -[audit_invariant last_segment append];
    try solve [audit_steps].
  destruct url as [[| c url] |], out;
    cbn -[audit_invariant last_segment append]; audit_steps.
Qed.

Lemma empty_world_ok : world_ok empty_world.
Proof.
  unfold world_ok, audit_invariant. cbn.
  repeat split; try contradiction. intros _. lia.
Qed.

Lemma step_keeps_audit (c : Call) (w : World) : world_ok w -> world_ok (step c w).
Proof.
  destruct c; cbn [step].
  - apply post_api_tasks_keeps_audit.
  - apply post_api_transcribe_and_route_keeps_audit.
  - apply post_api_upload_keeps_audit.
Qed.

Lemma serve_keeps_audit (calls : list Call) :
  forall w, world_ok w -> world_ok (serve calls w).
Proof.
  induction calls as [| c calls IH]; intros w Hw; [exact Hw |].
  cbn [serve fold_left]. apply IH. apply step_keeps_audit. exact Hw.
Qed.

Lemma reachable_ok (calls : list Call) : world_ok (serve calls empty_world).
Proof. apply serve_keeps_audit. apply empty_world_ok. Qed.

(** ** Reading the trace *)

Lemma decisions_of_app (t : Id) (a b : list Event) :
  decisions_of t (a ++ b) = decisions_of t a ++ decisions_of t b.
Proof. unfold decisions_of. apply flat_map_app. Qed.

Lemma decisions_of_found (t : Id) (evs : list Event) :
  decisions_of t evs <> [] ->
  exists d, In (InsertDecision d) evs /\ decision_task_id d = t.
Proof.
  induction evs as [| e rest IH]; [intros H; now elim H |].
  cbn [decisions_of flat_map]. fold (decisions_of t rest). intros H.
  assert (Hrest : decisions_of t rest <> [] ->
                  exists d, In (InsertDecision d) (e :: rest)
                            /\ decision_task_id d = t).
  { intros Hne. destruct (IH Hne) as (d & Hin & Hd).
    exists d. split; [right; exact Hin | exact Hd]. }
  destruct e; try (apply Hrest; exact H).
  destruct (Nat.eqb_spec (decision_task_id row) t) as [Heq | Hneq].
  - exists row. split; [left; reflexivity | exact Heq].
  - apply Hrest. exact H.
Qed.

Lemma runs_follow_decisions_tail (newer older : list Event) :
  runs_follow_decisions (newer ++ older) -> runs_follow_decisions older.
Proof.
  induction newer as [| e newer IH]; [trivial |].
  cbn [app runs_follow_decisions]. destruct e; try exact IH.
  intros [_ H]. apply IH. exact H.
Qed.

(** C7.  After any sequence of requests to the three endpoints, whatever
    the collaborators answered, every row of [model_runs] in the trace was
    written after a routing decision of the same task (the decision is
    among the events older than the run), and that task has exactly one
    routing decision: no execution record is stored for a task without a
    stored decision. *)
Theorem decision_precedes_every_run
    (calls : list Call) (newer older : list Event) (r : RunRow) :
  events (serve calls empty_world) = newer ++ InsertRun r :: older ->
  (exists d, In (InsertDecision d) older
             /\ decision_task_id d = run_task_id r)
  /\ List.length (decisions_of (run_task_id r) (events (serve calls empty_world)))
     = 1%nat.
Proof.
  intros Hsplit.
  destruct (reachable_ok calls) as (_ & _ & Hone & Hruns).
  rewrite Hsplit in Hruns. apply runs_follow_decisions_tail in Hruns.
  cbn [runs_follow_decisions] in Hruns. destruct Hruns as [Hsome _].
  split; [apply decisions_of_found; exact Hsome |].
  specialize (Hone (run_task_id r)).
  rewrite Hsplit in Hone |- *.
  change (newer ++ InsertRun r :: older)
    with (newer ++ [InsertRun r] ++ older) in Hone |- *.
  rewrite !decisions_of_app in Hone |- *.
  rewrite !length_app in Hone |- *.
  destruct (decisions_of (run_task_id r) older); [now elim Hsome |].
  cbn [List.length] in Hone |- *. lia.
Qed.

Lemma decision_precedes_every_run_witness :
  List.length
    (decisions_of 0%nat
       (events
          (serve [PostTasks Samples.all_succeed Samples.summary_request]
             empty_world)))
  = 1%nat.
Proof.
  exact (proj2
           (decision_precedes_every_run
              [PostTasks Samples.all_succeed Samples.summary_request]
              [UpdateTaskStatus 0%nat "completed"]
              [InsertDecision
                 (decision_row 0%nat
                    (routeTask (mkRouteInput "summary" "high_quality" 40))
                    1%nat);
               InsertTask
                 (mkTaskRow 0%nat "summary" "high_quality" (Some "hello") 40
                    None)]
              (run_row 0%nat
                 (routeTask (mkRouteInput "summary" "high_quality" 40))
                 1817 40 2%nat)
              eq_refl)).
Defined.

(** ** POST /api/tasks, case by case *)

(** What one call of POST /api/tasks answers and leaves behind, by the
    answers of the store. *)
Lemma post_api_tasks_cases (env : TasksEnv) (body : TasksBody) (w : World) :
  let n := next_id w in
  let task := task_row body n in
  let routing := routeTask (route_input body) in
  let d := decision_row n routing (S n) in
  post_api_tasks env body w =
  match tasks_insert_error env with
  | Some e => (Failure 500 e, record (ConsoleError e) w)
  | None =>
      match decisions_insert_error env with
      | Some e =>
          (Failure 500 e,
           mkWorld (ConsoleError e :: InsertTask task :: events w) (S n))
      | None =>
          let after_run :=
            match runs_insert_error env with
            | Some e =>
                mkWorld
                  (ConsoleError ("model_runs insert error: " ++ e)%string
                   :: InsertDecision d :: InsertTask task :: events w)
                  (S (S n))
            | None =>
                mkWorld
                  (InsertRun
                     (run_row n routing
                        (estimatedLatencyMs routing + jitter env)
                        (estimatedCostCents routing) (S (S n)))
                   :: InsertDecision d :: InsertTask task :: events w)
                  (S (S (S n)))
            end in
          (Ok200 {| ok_task := task; ok_decision := Some d;
                    ok_routing := routing |},
           match tasks_update_error env with
           | Some _ => after_run
           | None => record (UpdateTaskStatus n "completed") after_run
           end)
      end
  end.
Proof.
  destruct env as [e1 e2 e3 e4 j], w as [evs n].
  destruct e1, e2, e3, e4; reflexivity.
Qed.

(** A request with a parsed body is served as [post_api_tasks] serves the
    body. *)
Lemma post_api_tasks_handler_parsed (env : TasksEnv) (body : TasksBody) (w : World) :
  post_api_tasks_handler env (Some body) w = post_api_tasks env body w.
Proof. reflexivity. Qed.

(** C5, as the code has it.  POST /api/tasks does not validate the text or
    the budget ceiling.  A request whose body was parsed, with a task
    type, a tier and an integer ceiling, and in which the text is absent
    or the ceiling is negative, is not rejected:
    the first step inserts the task row with the fields as they came, the
    row is stored whenever the store accepts that insert, and the request
    is answered with status 500 exactly when the insert into [tasks] or
    the one into [routing_decisions] reports an error; when the first
    insert fails nothing but the log line is left behind.  The one request
    the handler itself fails before any state change is a request without
    a parsed body: the destructuring throws, the answer is status 500 and
    nothing but the log line is left behind. *)
Theorem post_api_tasks_does_not_validate
    (env : TasksEnv) (req_body : option TasksBody) (w : World) :
  (req_body = None ->
   post_api_tasks_handler env req_body w
   = (Failure 500
        "Cannot destructure property 'taskType' of 'req.body' as it is undefined.",
      record
        (ConsoleError
           "Cannot destructure property 'taskType' of 'req.body' as it is undefined.")
        w))
  /\ (forall body,
        req_body = Some body ->
        body_inputText body = None \/ body_maxCostCents body < 0 ->
        (tasks_insert_error env = None ->
         In (InsertTask (task_row body (next_id w)))
            (events (snd (post_api_tasks_handler env req_body w))))
        /\ (is_ok (fst (post_api_tasks_handler env req_body w)) = true
            <-> tasks_insert_error env = None
                /\ decisions_insert_error env = None)
        /\ (forall e, tasks_insert_error env = Some e ->
              post_api_tasks_handler env req_body w
              = (Failure 500 e, record (ConsoleError e) w))).
Proof.
  split; [intros ->; reflexivity |].
  intros body -> _.
  rewrite post_api_tasks_handler_parsed, post_api_tasks_cases.
  destruct env as [e1 e2 e3 e4 j]. cbn [tasks_insert_error
    decisions_insert_error runs_insert_error tasks_update_error jitter].
  split; [| split].
  - intros ->. destruct e2, e3, e4; cbn; auto 6.
  - destruct e1, e2; cbn; intuition discriminate.
  - intros e ->. reflexivity.
Qed.

Lemma post_api_tasks_does_not_validate_witness :
  is_ok (fst (post_api_tasks_handler Samples.all_succeed
                (Some Samples.negative_ceiling) empty_world)) = true
  <-> tasks_insert_error Samples.all_succeed = None
      /\ decisions_insert_error Samples.all_succeed = None.
Proof.
  apply (proj2 (post_api_tasks_does_not_validate Samples.all_succeed
                  (Some Samples.negative_ceiling) empty_world)
           Samples.negative_ceiling eq_refl).
  right. reflexivity.
Defined.

(** C5, as the specification states it, fails: a request with budget
    ceiling -5 is not rejected, and neither is a request without text.
    With a store that accepts every write each is answered with a 200, its
    task row is stored as it came (ceiling -5, no text), routed and marked
    completed. *)
Lemma unvalidated_request_counterexample :
  (body_maxCostCents Samples.negative_ceiling = -5
   /\ is_ok (fst (post_api_tasks_handler Samples.all_succeed
                    (Some Samples.negative_ceiling) empty_world)) = true
   /\ tasks_of (events (snd (post_api_tasks_handler Samples.all_succeed
                               (Some Samples.negative_ceiling) empty_world)))
      = [mkTaskRow 0%nat "summary" "low_cost" (Some "hello") (-5) None]
   /\ marked_completed 0%nat
        (events (snd (post_api_tasks_handler Samples.all_succeed
                        (Some Samples.negative_ceiling) empty_world))) = true)
  /\ (body_inputText Samples.without_text = None
      /\ is_ok (fst (post_api_tasks_handler Samples.all_succeed
                       (Some Samples.without_text) empty_world)) = true
      /\ tasks_of (events (snd (post_api_tasks_handler Samples.all_succeed
                                  (Some Samples.without_text) empty_world)))
         = [mkTaskRow 0%nat "summary" "low_cost" None 5 None]
      /\ marked_completed 0%nat
           (events (snd (post_api_tasks_handler Samples.all_succeed
                           (Some Samples.without_text) empty_world))) = true).
Proof. repeat split. Qed.

(** C4, as the code has it.  Routing is not an operation of its own that
    could be repeated on a task: each call of POST /api/tasks creates a new
    task and writes one routing decision for that task.  After any
    sequence of requests no task has more than one routing decision, and a
    further call whose inserts into [tasks] and [routing_decisions]
    succeed is answered with a 200 whatever was stored before: its task is
    new (no stored task has its key, no decision refers to it) and has
    exactly one routing decision afterwards. *)
Theorem every_call_routes_a_new_task_once (calls : list Call) :
  let w := serve calls empty_world in
  (forall t, (List.length (decisions_of t (events w)) <= 1)%nat)
  /\ (forall env body,
        tasks_insert_error env = None ->
        decisions_insert_error env = None ->
        exists ok,
          fst (post_api_tasks env body w) = Ok200 ok
          /\ (forall t, In (InsertTask t) (events w) ->
                task_id t <> task_id (ok_task ok))
          /\ decisions_of (task_id (ok_task ok)) (events w) = []
          /\ List.length
               (decisions_of (task_id (ok_task ok))
                  (events (snd (post_api_tasks env body w)))) = 1%nat).
Proof.
  cbv zeta. pose proof (reachable_ok calls) as Hok.
  set (w := serve calls empty_world) in *.
  split; [apply Hok |].
  intros env body He1 He2.
  assert (Hfresh : decisions_of (next_id w) (events w) = []).
  { apply (fresh_undecided (next_id w) (events w) Hok). lia. }
  rewrite post_api_tasks_cases, He1, He2. cbv zeta.
  eexists. split; [reflexivity |]. cbn [fst snd ok_task task_row task_id].
  split; [| split; [exact Hfresh |]].
  - intros t Hin Heq. destruct Hok as (Ht & _). specialize (Ht t Hin). lia.
  - destruct (runs_insert_error env), (tasks_update_error env);
      cbn [record events decisions_of flat_map decision_row decision_task_id app];
      fold (decisions_of (next_id w) (events w));
      rewrite Nat.eqb_refl, Hfresh; reflexivity.
Qed.

Lemma every_call_routes_a_new_task_once_witness :
  exists ok,
    fst (post_api_tasks Samples.all_succeed Samples.summary_request
           (serve [PostTasks Samples.all_succeed Samples.summary_request]
              empty_world))
    = Ok200 ok
    /\ task_id (ok_task ok) = 3%nat.
Proof.
  destruct (proj2 (every_call_routes_a_new_task_once
                     [PostTasks Samples.all_succeed Samples.summary_request])
              Samples.all_succeed Samples.summary_request eq_refl eq_refl)
    as (ok & Hresp & _).
  exists ok. split; [exact Hresp |].
  cbv in Hresp. injection Hresp as <-. reflexivity.
Defined.

(** C4, as the specification states it, fails: the same request sent twice
    to POST /api/tasks is answered with a 200 both times.  The second call
    is not rejected as already routed; it creates a second task and a
    second routing decision.  The entry point the workflow calls back
    behaves alike: triggered twice for the same file and transcript, it
    answers 200 twice and routes two tasks of the same transcript, so two
    routing decisions exist for the one piece of content. *)
Lemma repeated_request_counterexample :
  let first :=
    post_api_tasks Samples.all_succeed Samples.summary_request empty_world in
  let second :=
    post_api_tasks Samples.all_succeed Samples.summary_request (snd first) in
  let once :=
    post_api_transcribe_and_route Samples.transcribe_succeeds Samples.resume
      Samples.uploaded in
  let twice :=
    post_api_transcribe_and_route Samples.transcribe_succeeds Samples.resume
      (snd once) in
  (is_ok (fst first) = true
   /\ is_ok (fst second) = true
   /\ map task_id (tasks_of (events (snd second))) = [3%nat; 0%nat]
   /\ map decision_id
        (decisions_of 0%nat (events (snd second))
         ++ decisions_of 3%nat (events (snd second)))
      = [1%nat; 4%nat])
  /\ (is_ok (fst once) = true
      /\ is_ok (fst twice) = true
      /\ map (fun t => (task_id t, transcript_id t))
           (tasks_of (events (snd twice)))
         = [(5%nat, Some 1%nat); (2%nat, Some 1%nat)]
      /\ map decision_id
           (decisions_of 2%nat (events (snd twice))
            ++ decisions_of 5%nat (events (snd twice)))
         = [3%nat; 6%nat]).
Proof. cbv zeta. repeat split. Qed.

(** ** A failing store call during orchestration *)

(** An error of the insert into [tasks] or into [routing_decisions] is
    thrown: the caller gets a 500 and the task is not marked completed. *)
Lemma thrown_store_errors_surface (env : TasksEnv) (body : TasksBody) (w : World) :
  tasks_insert_error env <> None \/ decisions_insert_error env <> None ->
  is_ok (fst (post_api_tasks env body w)) = false
  /\ marked_completed (next_id w) (events (snd (post_api_tasks env body w)))
     = marked_completed (next_id w) (events w).
Proof.
  intros Herr. rewrite post_api_tasks_cases.
  destruct (tasks_insert_error env) as [e |]; [split; reflexivity |].
  destruct (decisions_insert_error env) as [e |]; [split; reflexivity |].
  destruct Herr as [H | H]; now elim H.
Qed.

(** An error of the insert into [model_runs] is only logged: when the two
    inserts before it succeed, the answer is a 200, and unless the status
    update fails too the task is marked completed although it has no
    execution record. *)
Lemma run_insert_error_is_swallowed
    (env : TasksEnv) (body : TasksBody) (w : World) (e : string) :
  tasks_insert_error env = None ->
  decisions_insert_error env = None ->
  runs_insert_error env = Some e ->
  tasks_update_error env = None ->
  is_ok (fst (post_api_tasks env body w)) = true
  /\ marked_completed (next_id w) (events (snd (post_api_tasks env body w)))
     = true
  /\ runs_of (next_id w) (events (snd (post_api_tasks env body w)))
     = runs_of (next_id w) (events w).
Proof.
  intros H1 H2 H3 H4. rewrite post_api_tasks_cases, H1, H2, H3, H4.
  cbn [fst snd is_ok record events marked_completed existsb].
  rewrite Nat.eqb_refl. repeat split.
Qed.

(** C6 at the failing input: the insert into [model_runs] reports
    ["insert failed"] during POST /api/tasks.  The handler logs the error,
    marks task 0 completed and answers with a 200; no execution record of
    the task exists.  The sibling handler of POST /api/transcribe-and-route
    throws on the same error and answers with a 500. *)
Theorem run_insert_failure_marks_task_completed :
  is_ok (fst (post_api_tasks Samples.run_insert_fails Samples.summary_request
                empty_world)) = true
  /\ events (snd (post_api_tasks Samples.run_insert_fails
                    Samples.summary_request empty_world))
     = [UpdateTaskStatus 0%nat "completed";
        ConsoleError "model_runs insert error: insert failed";
        InsertDecision
          (mkDecisionRow 1%nat 0%nat gpt_4_1
             "Selected gpt_4_1 based on SLA=high_quality, taskType=summary, maxCost=40c"
             40 1800);
        InsertTask
          (mkTaskRow 0%nat "summary" "high_quality" (Some "hello") 40 None)]
  /\ marked_completed 0%nat
       (events (snd (post_api_tasks Samples.run_insert_fails
                       Samples.summary_request empty_world))) = true
  /\ runs_of 0%nat
       (events (snd (post_api_tasks Samples.run_insert_fails
                       Samples.summary_request empty_world))) = []
  /\ fst (post_api_transcribe_and_route Samples.transcribe_run_insert_fails
            Samples.resume Samples.uploaded)
     = Failure 500 "Model run insert failed: insert failed".
Proof. repeat split. Qed.

(** ** POST /api/upload and the webhook *)

(** C8, as the code has it.  When the three writes of an upload succeed
    and a webhook is configured: a notification that is answered, with
    whatever HTTP status, leaves the request a success (the answer is
    ignored, nothing is logged); a notification whose [fetch] rejects is
    caught by the handler, logged, and answered to the caller with status
    500 and the message of the rejection.  Either way the storage object,
    the artifact row and the transcript row written before stay in
    place. *)
Theorem notification_failure_keeps_records
    (env : UploadEnv) (file : MulterFile) (w : World) (url : string) :
  storage_upload_error env = None ->
  files_insert_error env = None ->
  transcripts_insert_error env = None ->
  truthy (N8N_FILE_WEBHOOK_URL env) = Some url ->
  let n := next_id w in
  let path :=
    ("raw/" ++ randomUUID env ++ "."
     ++ last_segment EmptyString (originalname file))%string in
  let fileRow :=
    mkUploadedFileRow n (originalname file) (mimetype file) path "uploaded" in
  let transcriptRow := mkTranscriptRow (S n) n "processing" in
  let stored :=
    InsertTranscript transcriptRow :: InsertFile fileRow
    :: StorageUpload path (buffer file) (mimetype file) :: events w in
  post_api_upload env (Some file) w =
  match fetch_outcome env with
  | Resolved _ =>
      (Ok200 (mkUploadOk fileRow (Some transcriptRow)),
       mkWorld (WebhookPost url n (S n) :: stored) (S (S n)))
  | Rejected message =>
      (Failure 500 message,
       mkWorld (ConsoleError message :: stored) (S (S n)))
  end.
Proof.
  destruct env as [u e1 e2 e3 hook out], w as [evs n].
  cbn [storage_upload_error files_insert_error transcripts_insert_error
       N8N_FILE_WEBHOOK_URL fetch_outcome randomUUID].
  intros -> -> -> Hurl. cbv zeta.
  unfold post_api_upload, try_catch, post_api_upload_body, storage_upload,
    fetch_post, bind, ret, throw, db_insert, db_update, field_of, record.
  cbn -[last_segment append truthy]. rewrite Hurl.
  destruct out; reflexivity.
Qed.

Lemma notification_failure_keeps_records_witness :
  post_api_upload Samples.webhook_answers_500 (Some Samples.recording)
    empty_world
  = (Ok200
       (mkUploadOk
          (mkUploadedFileRow 0%nat "call.rec.mp3" "audio/mpeg" "raw/u-1.mp3"
             "uploaded")
          (Some (mkTranscriptRow 1%nat 0%nat "processing"))),
     mkWorld
       [WebhookPost Samples.webhook 0%nat 1%nat;
        InsertTranscript (mkTranscriptRow 1%nat 0%nat "processing");
        InsertFile
          (mkUploadedFileRow 0%nat "call.rec.mp3" "audio/mpeg" "raw/u-1.mp3"
             "uploaded");
        StorageUpload "raw/u-1.mp3" "bytes" "audio/mpeg"]
       2%nat).
Proof.
  exact (notification_failure_keeps_records Samples.webhook_answers_500
           Samples.recording empty_world Samples.webhook
           eq_refl eq_refl eq_refl eq_refl).
Defined.

(** C8, as the specification states it, fails: with nothing listening at
    the webhook, [fetch] rejects and the upload is answered with status
    500 and the message of the rejection.  The file and transcript rows
    stay stored. *)
Lemma webhook_down_counterexample :
  post_api_upload Samples.webhook_down (Some Samples.recording) empty_world
  = (Failure 500 "fetch failed",
     mkWorld
       [ConsoleError "fetch failed";
        InsertTranscript (mkTranscriptRow 1%nat 0%nat "processing");
        InsertFile
          (mkUploadedFileRow 0%nat "call.rec.mp3" "audio/mpeg" "raw/u-1.mp3"
             "uploaded");
        StorageUpload "raw/u-1.mp3" "bytes" "audio/mpeg"]
       2%nat).
Proof. reflexivity. Qed.

(** * Further properties of the routing decision engine *)

Lemma affordable_gtb (ceiling : Z) (m : ModelName) :
  affordable ceiling m = negb (costPerTask (MODEL_PROFILE m) >? ceiling).
Proof.
  unfold affordable. rewrite Z.gtb_ltb, Z.leb_antisym. reflexivity.
Qed.

Lemma routeTask_model_choose (input : RouteInput) :
  model (routeTask input)
  = choose_model (sla input) (exceeds_integer (maxCostCents input)).
Proof. reflexivity. Qed.

Ltac by_comparisons exceeds :=
  destruct (exceeds 40) eqn:?, (exceeds 10) eqn:?, (exceeds 1) eqn:?;
  cbn [negb]; try reflexivity; try discriminate.

(** [routeTask] walks the fallback chain of the README.  Whatever the
    ceiling is, its model is the first backend, from the one the tier
    prefers on, whose cost the comparison [cost > maxCostCents] does not
    find above the ceiling, and [rules_engine] when every cost is above
    it.  For an integer ceiling that is the first backend whose cost is
    at most the ceiling; for a ceiling that is [NaN] or missing, where
    every comparison is false, it is the preferred backend.  The task type
    has no part in the choice. *)
Theorem routeTask_walks_fallback_chain :
  (forall tier exceeds,
     choose_model tier exceeds = first_not_exceeded tier exceeds)
  /\ (forall input,
        model (routeTask input)
        = choose_model (sla input) (exceeds_integer (maxCostCents input))
        /\ model (routeTask input)
           = first_affordable (sla input) (maxCostCents input))
  /\ (forall tier, choose_model tier exceeds_nan = preferred tier).
Proof.
  split; [| split].
  - intros tier exceeds. unfold choose_model, first_not_exceeded, preferred.
    destruct (tier =? "high_quality")%string;
      [| destruct (tier =? "low_latency")%string];
      cbn [fallback_chain chain_from ModelName_eqb find MODEL_PROFILE costPerTask];
      by_comparisons exceeds.
  - intros input. split; [apply routeTask_model_choose |].
    destruct input as [kind tier c].
    unfold routeTask, first_affordable, preferred.
    cbn [sla maxCostCents taskType model].
    destruct (tier =? "high_quality")%string;
      [| destruct (tier =? "low_latency")%string];
      cbn [fallback_chain chain_from ModelName_eqb find];
      rewrite ?affordable_gtb;
      cbn [MODEL_PROFILE costPerTask ModelName_eqb];
      repeat match goal with
             | |- context [?a >? c] => destruct (a >? c); cbn [negb]
             end;
      reflexivity.
  - intros tier. reflexivity.
Qed.

(** A larger budget never buys a cheaper backend: for the same tier, the
    cost of the chosen backend grows with the ceiling. *)
Theorem routeTask_monotone_in_ceiling (kind1 kind2 tier : string) (c1 c2 : Z) :
  c1 <= c2 ->
  estimatedCostCents (routeTask (mkRouteInput kind1 tier c1))
  <= estimatedCostCents (routeTask (mkRouteInput kind2 tier c2)).
Proof.
  intros Hle.
  destruct (routeTask_estimates (mkRouteInput kind1 tier c1)) as [-> _].
  destruct (routeTask_estimates (mkRouteInput kind2 tier c2)) as [-> _].
  pose proof (routeTask_model_cases (mkRouteInput kind1 tier c1)) as H1.
  pose proof (routeTask_model_cases (mkRouteInput kind2 tier c2)) as H2.
  cbv zeta in H1, H2. cbn [sla maxCostCents] in H1, H2.
  destruct H1 as [(-> & Hp1 & Hc1) | [(-> & Hp1 & Hc1 & Hd1) | (-> & Hr1)]];
    destruct H2 as [(-> & Hp2 & Hc2) | [(-> & Hp2 & Hc2 & Hd2) | (-> & Hr2)]];
    cbn [MODEL_PROFILE costPerTask]; try lia.
  - specialize (Hd2 Hp1). lia.
  - destruct Hr2 as [Hr2 | Hr2]; [congruence | lia].
  - destruct Hr2 as [Hr2 | Hr2]; [congruence | lia].
Qed.

Lemma routeTask_monotone_in_ceiling_witness :
  estimatedCostCents (routeTask (mkRouteInput "summary" "high_quality" 12))
  <= estimatedCostCents (routeTask (mkRouteInput "extraction" "high_quality" 45)).
Proof.
  apply (routeTask_monotone_in_ceiling "summary" "extraction" "high_quality" 12 45).
  lia.
Defined.

(** The budget only ever moves the choice down the chain.  Whatever the
    ceiling is, the chosen backend costs no more and is no slower than
    the one the tier prefers; the preferred backend is kept whenever the
    comparison [cost > maxCostCents] does not find its cost above the
    ceiling, and it is returned although its cost is above the ceiling
    only when it is the last resort [rules_engine].  For an integer
    ceiling "not above" reads "at most". *)
Theorem routeTask_never_upgrades :
  (forall tier exceeds,
     let chosen := MODEL_PROFILE (choose_model tier exceeds) in
     let wanted := MODEL_PROFILE (preferred tier) in
     costPerTask chosen <= costPerTask wanted
     /\ latencyMs chosen <= latencyMs wanted
     /\ (exceeds (costPerTask wanted) = false ->
         choose_model tier exceeds = preferred tier)
     /\ (choose_model tier exceeds = preferred tier ->
         exceeds (costPerTask wanted) = false
         \/ choose_model tier exceeds = rules_engine))
  /\ (forall input,
        model (routeTask input)
        = choose_model (sla input) (exceeds_integer (maxCostCents input)))
  /\ (forall input,
        let chosen := MODEL_PROFILE (model (routeTask input)) in
        let wanted := MODEL_PROFILE (preferred (sla input)) in
        costPerTask chosen <= costPerTask wanted
        /\ latencyMs chosen <= latencyMs wanted
        /\ (costPerTask wanted <= maxCostCents input ->
            model (routeTask input) = preferred (sla input))
        /\ (model (routeTask input) = preferred (sla input) ->
            costPerTask wanted <= maxCostCents input
            \/ model (routeTask input) = rules_engine)).
Proof.
  split; [| split; [intros input; apply routeTask_model_choose |]].
  { intros tier exceeds. cbv zeta. unfold choose_model.
    destruct (preferred tier);
      cbn [MODEL_PROFILE costPerTask latencyMs ModelName_eqb];
      destruct (exceeds 40) eqn:?, (exceeds 10) eqn:?, (exceeds 1) eqn:?;
      cbn [MODEL_PROFILE costPerTask latencyMs];
      repeat split; intros;
      first [lia | discriminate | reflexivity
            | left; reflexivity | right; reflexivity | assumption | congruence]. }
  intros input.
  cbv zeta.
  destruct (routeTask_model_cases input)
    as [(-> & Hp & Hc) | [(-> & Hp & Hc & Hd) | (-> & Hr)]].
  - rewrite Hp. cbn. repeat split; intros; first [lia | reflexivity | left; lia].
  - destruct (preferred (sla input)); [| | now elim Hp].
    + specialize (Hd eq_refl). cbn.
      repeat split; intros; first [lia | discriminate].
    + cbn. repeat split; intros; first [lia | reflexivity | left; lia].
  - assert (Hlast : forall P : Prop, P \/ rules_engine = rules_engine)
      by (intros; right; reflexivity).
    destruct Hr as [-> | Hr]; cbn [MODEL_PROFILE costPerTask latencyMs].
    + repeat split; intros; first [lia | reflexivity | apply Hlast].
    + destruct (preferred (sla input)); cbn [MODEL_PROFILE costPerTask latencyMs];
        repeat split; intros;
        first [lia | discriminate | reflexivity | apply Hlast].
Qed.

(** The recorded estimate exceeds the stated ceiling exactly when the
    ceiling is below 1, the cost of the cheapest backend: that is the only
    way a decision can be over budget. *)
Theorem routeTask_over_budget_iff (input : RouteInput) :
  maxCostCents input < estimatedCostCents (routeTask input)
  <-> maxCostCents input < costPerTask (MODEL_PROFILE rules_engine).
Proof.
  destruct (routeTask_estimates input) as [-> _].
  destruct (routeTask_model_cases input)
    as [(-> & _ & Hc) | [(-> & _ & Hc & _) | (-> & _)]];
    cbn [MODEL_PROFILE costPerTask]; lia.
Qed.

(** * Further properties of the request handlers *)

Import Trail.

(** ** Lookups in the trace *)

Lemma find_file_In (id : Id) (evs : list Event) (f : UploadedFileRow) :
  find_file id evs = Some f -> In (InsertFile f) evs /\ file_id f = id.
Proof.
  induction evs as [| e rest IH]; [discriminate |].
  cbn [find_file]. intros H.
  assert (Hrest : find_file id rest = Some f ->
                  In (InsertFile f) (e :: rest) /\ file_id f = id).
  { intros Hf. destruct (IH Hf) as [Hin Hid]. split; [right |]; assumption. }
  destruct e; try (apply Hrest; exact H).
  destruct (Nat.eqb_spec (file_id row) id) as [Heq | Hneq].
  - injection H as <-. split; [left; reflexivity | exact Heq].
  - apply Hrest. exact H.
Qed.

Lemma tasks_of_In (t : TaskRow) (evs : list Event) :
  In t (tasks_of evs) <-> In (InsertTask t) evs.
Proof.
  unfold tasks_of. rewrite in_flat_map. split.
  - intros (e & Hin & Ht). destruct e; try contradiction.
    destruct Ht as [<- | []]. exact Hin.
  - intros Hin. exists (InsertTask t). split; [exact Hin | left; reflexivity].
Qed.

Lemma task_key_fresh (n k : Id) (evs : list Event) :
  audit_invariant n evs -> (n <= k)%nat ->
  ~ In k (map task_id (tasks_of evs)).
Proof.
  intros (Ht & _) Hle Hin. apply in_map_iff in Hin.
  destruct Hin as (t & Hk & Hin). apply tasks_of_In in Hin.
  specialize (Ht t Hin). lia.
Qed.

(** ** Each handler keeps the record of the trace *)

Ltac in_trace :=
  solve [ repeat first [left; reflexivity | right]; eassumption ].

Ltac trail_goal :=
  lazymatch goal with
  | |- _ /\ _ => split; trail_goal
  | |- exists _, _ => eexists; trail_goal
  | |- True => exact I
  | |- In _ _ => in_trace
  | |- decision_of_task _ _ =>
      unfold decision_of_task; cbn -[routeTask]; repeat split
  | |- run_of_decision _ _ =>
      unfold run_of_decision; cbn -[routeTask]; repeat split
  | |- decisions_of _ _ <> [] =>
      cbn -[routeTask]; rewrite Nat.eqb_refl; discriminate
  | |- trace_ok _ => assumption
  | |- _ = _ => first [reflexivity | eassumption]
  end.

Ltac keys_goal :=
  cbn [tasks_of flat_map app map];
  first
    [ assumption
    | constructor;
      [ match goal with
        | H : audit_invariant ?n ?evs |- _ =>
            apply (task_key_fresh n _ evs H); cbn; lia
        end
      | assumption ] ].

Ltac trail_step :=
  cbn [snd events record trace_ok event_ok];
  split; [trail_goal | keys_goal].

Lemma post_api_tasks_keeps_trail (env : TasksEnv) (body : TasksBody) (w : World) :
  trail_ok w -> trail_ok (snd (post_api_tasks env body w)).
Proof.
  intros (Hw & Ht & Hk).
  split; [apply post_api_tasks_keeps_audit; exact Hw |].
  rewrite post_api_tasks_cases. destruct w as [evs n].
  unfold world_ok in Hw. cbn [events next_id] in *.
  destruct (tasks_insert_error env), (decisions_insert_error env),
    (runs_insert_error env), (tasks_update_error env);
    cbn [snd record events trace_ok event_ok];
    (split; [trail_goal | keys_goal]).
Qed.

Lemma post_api_transcribe_and_route_keeps_trail
    (env : TranscribeEnv) (body : TranscribeBody) (w : World) :
  trail_ok w -> trail_ok (snd (post_api_transcribe_and_route env body w)).
Proof.
  intros (Hw & Ht & Hk).
  split; [apply post_api_transcribe_and_route_keeps_audit; exact Hw |].
  destruct w as [evs n]. unfold world_ok in Hw. cbn [events next_id] in *.
  destruct env as [e1 e2 dl e3 e4 e5 e6 e7 j], body as [fid tid].
  unfold post_api_transcribe_and_route, try_catch,
    post_api_transcribe_and_route_body, call_routeTask, select_file,
    bind, ret, throw, db_insert, db_update, field_of, console_error, record.
  destruct fid as [fileId |], tid as [transcriptId |];
    cbn -[routeTask all_space append trace_ok tasks_of]; try (trail_step).
  destruct e1; cbn -[routeTask all_space append trace_ok tasks_of];
    [trail_step |].
  destruct (find_file fileId evs) as [fileRow |] eqn:Hfind;
    cbn -[routeTask all_space append trace_ok tasks_of]; [| trail_step].
  destruct (find_file_In _ _ _ Hfind) as [Hin Hid].
  destruct e2, dl as [text |]; cbn -[routeTask all_space append trace_ok tasks_of];
    try (trail_step).
  assert (Htext :
    all_space
      (if all_space text
       then ("Mock transcript for " ++ file_name fileRow ++ " stored at "
             ++ storage_path fileRow ++ "." ++ newline
             ++ "This simulates a real transcript generated from the uploaded file.")%string
       else text) = false)
    by (destruct (all_space text) eqn:Hsp; [reflexivity | exact Hsp]).
  destruct e3, e4, e5, e6, e7;
    cbn -[routeTask all_space append trace_ok tasks_of]; (trail_step).
Qed.

Lemma post_api_upload_keeps_trail
    (env : UploadEnv) (file : option MulterFile) (w : World) :
  trail_ok w -> trail_ok (snd (post_api_upload env file w)).
Proof.
  intros (Hw & Ht & Hk).
  split; [apply post_api_upload_keeps_audit; exact Hw |].
  destruct w as [evs n]. unfold world_ok in Hw. cbn [events next_id] in *.
  destruct env as [u e1 e2 e3 url out].
  unfold post_api_upload, try_catch, post_api_upload_body, storage_upload,
    fetch_post, truthy, bind, ret, throw, db_insert, db_update, field_of,
    console_error, record.
  destruct file as [file |]; cbn -[last_segment append trace_ok tasks_of];
    [| trail_step].
  destruct e1, e2, e3; cbn -[last_segment append trace_ok tasks_of];
    try (trail_step).
  destruct url as [[| c url] |], out; cbn -[last_segment append trace_ok tasks_of];
    (trail_step).
Qed.

Lemma empty_trail_ok : trail_ok empty_world.
Proof.
  split; [apply empty_world_ok |]. split; [exact I | constructor].
Qed.

Lemma step_keeps_trail (c : Call) (w : World) : trail_ok w -> trail_ok (step c w).
Proof.
  destruct c; cbn [step].
  - apply post_api_tasks_keeps_trail.
  - apply post_api_transcribe_and_route_keeps_trail.
  - apply post_api_upload_keeps_trail.
Qed.

Lemma serve_keeps_trail (calls : list Call) :
  forall w, trail_ok w -> trail_ok (serve calls w).
Proof.
  induction calls as [| c calls IH]; intros w Hw; [exact Hw |].
  cbn [serve fold_left]. apply IH. apply step_keeps_trail. exact Hw.
Qed.

Lemma reachable_trail (calls : list Call) : trail_ok (serve calls empty_world).
Proof. apply serve_keeps_trail. apply empty_trail_ok. Qed.

(** An event of a recorded trace was recorded on top of what is older. *)
Lemma trace_ok_at (newer older : list Event) (e : Event) :
  trace_ok (newer ++ e :: older) -> event_ok older e.
Proof.
  induction newer as [| x newer IH]; cbn [app trace_ok].
  - intros [H _]. exact H.
  - intros [_ H]. apply IH. exact H.
Qed.

Lemma trace_ok_In (evs : list Event) (e : Event) :
  trace_ok evs -> In e evs ->
  exists newer older, evs = newer ++ e :: older /\ event_ok older e.
Proof.
  intros Hok Hin. apply in_split in Hin. destruct Hin as (newer & older & ->).
  exists newer, older. split; [reflexivity |].
  apply (trace_ok_at newer older e Hok).
Qed.

Lemma trace_ok_tail (newer older : list Event) :
  trace_ok (newer ++ older) -> trace_ok older.
Proof.
  induction newer as [| x newer IH]; cbn [app trace_ok]; [trivial |].
  intros [_ H]. apply IH. exact H.
Qed.


Lemma decisions_of_In (t : Id) (d : DecisionRow) (evs : list Event) :
  In d (decisions_of t evs)
  <-> In (InsertDecision d) evs /\ decision_task_id d = t.
Proof.
  unfold decisions_of. rewrite in_flat_map. split.
  - intros (e & Hin & Hd). destruct e; try contradiction.
    destruct (Nat.eqb_spec (decision_task_id row) t); [| contradiction].
    destruct Hd as [<- | []]. split; assumption.
  - intros [Hin Ht]. exists (InsertDecision d). split; [exact Hin |].
    rewrite <- Ht, Nat.eqb_refl. left; reflexivity.
Qed.

Lemma at_most_one (A : Type) (l : list A) (x y : A) :
  (List.length l <= 1)%nat -> In x l -> In y l -> x = y.
Proof.
  destruct l as [| a [| b l]]; cbn; intros Hlen Hx Hy;
    [contradiction | | lia].
  destruct Hx as [<- | []], Hy as [<- | []]. reflexivity.
Qed.

Lemma one_decision (t : Id) (evs : list Event) :
  (List.length (decisions_of t evs) <= 1)%nat ->
  decisions_of t evs <> [] ->
  List.length (decisions_of t evs) = 1%nat.
Proof.
  destruct (decisions_of t evs); cbn; intros Hle Hne; [now elim Hne | lia].
Qed.

Lemma decisions_of_grows (t : Id) (newer older : list Event) :
  decisions_of t older <> [] -> decisions_of t (newer ++ older) <> [].
Proof.
  rewrite decisions_of_app. intros Hne Happ.
  apply app_eq_nil in Happ. destruct Happ as [_ H]. exact (Hne H).
Qed.

(** ** The audit trail after any sequence of requests *)



(** Every execution record carries out the routing decision of its task:
    whichever decision of the task is stored, the run has its model and
    its estimated cost, and it is recorded as a success. *)
Theorem run_carries_out_the_decision
    (calls : list Call) (r : RunRow) (d : DecisionRow) :
  In (InsertRun r) (events (serve calls empty_world)) ->
  In (InsertDecision d) (events (serve calls empty_world)) ->
  decision_task_id d = run_task_id r ->
  run_model r = chosen_model d
  /\ cost_cents r = estimated_cost_cents d
  /\ cost_cents r = costPerTask (MODEL_PROFILE (run_model r))
  /\ success r = true.
Proof.
  intros Hr Hd Hsame.
  destruct (reachable_trail calls) as ((_ & _ & Hone & _) & Htr & _).
  destruct (trace_ok_In _ _ Htr Hr)
    as (newer & older & Heq & d' & Hd' & Hid & Hm & Hc & Hs).
  assert (Hd'' : In (InsertDecision d') (events (serve calls empty_world))).
  { rewrite Heq. apply in_or_app. right. right. exact Hd'. }
  assert (d = d') as ->.
  { apply (at_most_one _ _ d d' (Hone (run_task_id r)));
      apply decisions_of_In; split; auto. }
  destruct (trace_ok_In _ _ Htr Hd'') as (_ & _ & _ & t & _ & _ & Hmt & _ & Hct & _).
  repeat split; auto. rewrite Hc, Hm, Hct, Hmt. reflexivity.
Qed.

Lemma run_carries_out_the_decision_witness :
  run_model
    (run_row 0%nat (routeTask (mkRouteInput "summary" "high_quality" 40))
       1817 40 2%nat)
  = chosen_model
      (decision_row 0%nat
         (routeTask (mkRouteInput "summary" "high_quality" 40)) 1%nat).
Proof.
  apply (run_carries_out_the_decision
           [PostTasks Samples.all_succeed Samples.summary_request]
           (run_row 0%nat (routeTask (mkRouteInput "summary" "high_quality" 40))
              1817 40 2%nat)
           (decision_row 0%nat
              (routeTask (mkRouteInput "summary" "high_quality" 40)) 1%nat)).
  - cbn. auto.
  - cbn. auto.
  - reflexivity.
Defined.

(** The only status a task is ever given is ['completed'], and only a
    task that has its routing decision is given it: a completed task has
    exactly one routing decision.  (It need not have an execution
    record.) *)
Theorem completed_task_was_routed
    (calls : list Call) (id : Id) (status : string) :
  In (UpdateTaskStatus id status) (events (serve calls empty_world)) ->
  status = "completed"
  /\ List.length (decisions_of id (events (serve calls empty_world))) = 1%nat.
Proof.
  intros Hin.
  destruct (reachable_trail calls) as ((_ & _ & Hone & _) & Htr & _).
  destruct (trace_ok_In _ _ Htr Hin) as (newer & older & Heq & Hst & Hne).
  split; [exact Hst |].
  apply one_decision; [apply Hone |].
  rewrite Heq.
  change (newer ++ UpdateTaskStatus id status :: older)
    with (newer ++ [UpdateTaskStatus id status] ++ older).
  rewrite app_assoc. apply decisions_of_grows. exact Hne.
Qed.

Lemma completed_task_was_routed_witness :
  "completed" = "completed"
  /\ List.length
       (decisions_of 0%nat
          (events (serve [PostTasks Samples.run_insert_fails
                            Samples.summary_request] empty_world))) = 1%nat.
Proof.
  apply (completed_task_was_routed
           [PostTasks Samples.run_insert_fails Samples.summary_request]
           0%nat "completed").
  cbn. auto.
Defined.

(** Every notification that reached the workflow service names a
    transcript row and a file row that were inserted before it was sent:
    the transcript row is the one of that file and was inserted with
    status ['processing'], the file row was inserted with status
    ['uploaded'], and the file's bytes were uploaded to storage under the
    path its row records.  (Later updates may have set either row to
    ['ready']; the statuses are those of the inserts.) *)
Theorem notification_names_stored_rows
    (calls : list Call) (url : string) (fileId transcriptId : Id) :
  In (WebhookPost url fileId transcriptId) (events (serve calls empty_world)) ->
  exists tr f content,
    In (InsertTranscript tr) (events (serve calls empty_world))
    /\ In (InsertFile f) (events (serve calls empty_world))
    /\ In (StorageUpload (storage_path f) content (file_type f))
         (events (serve calls empty_world))
    /\ transcript_row_id tr = transcriptId
    /\ transcript_file_id tr = fileId
    /\ file_id f = fileId
    /\ transcript_status tr = "processing"
    /\ file_status f = "uploaded".
Proof.
  intros Hin. destruct (reachable_trail calls) as (_ & Htr & _).
  set (evs := events (serve calls empty_world)) in *.
  destruct (trace_ok_In _ _ Htr Hin)
    as (n1 & o1 & E1 & tr & Htr1 & Hti & Htf).
  assert (T1 : trace_ok o1).
  { rewrite E1 in Htr.
    apply (trace_ok_tail (n1 ++ [WebhookPost url fileId transcriptId]) o1).
    rewrite <- app_assoc. exact Htr. }
  destruct (trace_ok_In _ _ T1 Htr1)
    as (n2 & o2 & E2 & Hts & f & Hf & Hfid).
  assert (T2 : trace_ok o2).
  { rewrite E2 in T1.
    apply (trace_ok_tail (n2 ++ [InsertTranscript tr]) o2).
    rewrite <- app_assoc. exact T1. }
  destruct (trace_ok_In _ _ T2 Hf) as (n3 & o3 & E3 & Hfs & content & Hc).
  assert (I2 : forall e, In e o2 -> In e evs).
  { intros e He. rewrite E1. apply in_or_app. right. right.
    rewrite E2. apply in_or_app. right. right. exact He. }
  exists tr, f, content. repeat split; auto.
  - rewrite E1. apply in_or_app. right. right. exact Htr1.
  - apply I2. rewrite E3. apply in_or_app. right. right. exact Hc.
  - congruence.
Qed.

Lemma notification_names_stored_rows_witness :
  exists tr f content,
    In (InsertTranscript tr) (events Samples.uploaded)
    /\ In (InsertFile f) (events Samples.uploaded)
    /\ In (StorageUpload (storage_path f) content (file_type f))
         (events Samples.uploaded)
    /\ transcript_row_id tr = 1%nat
    /\ transcript_file_id tr = 0%nat
    /\ file_id f = 0%nat
    /\ transcript_status tr = "processing"
    /\ file_status f = "uploaded".
Proof.
  apply (notification_names_stored_rows
           [PostUpload Samples.webhook_answers_500 (Some Samples.recording)]
           Samples.webhook 0%nat 1%nat).
  cbn. auto.
Defined.

(** A transcript is only ever filled with a text that [trim()] does not
    empty (a download that is empty or all white space, the Unicode spaces
    and line terminators included, is replaced by the mock transcript) and
    is then set to ['ready']; a file is only ever set to ['ready'], and
    only a stored file after an execution record was written. *)
Theorem resume_writes_ready_content (calls : list Call) :
  (forall id text language duration status,
     In (UpdateTranscript id text language duration status)
       (events (serve calls empty_world)) ->
     all_space text = false /\ status = "ready")
  /\ (forall id status,
        In (UpdateFileStatus id status) (events (serve calls empty_world)) ->
        status = "ready"
        /\ (exists f, In (InsertFile f) (events (serve calls empty_world))
                      /\ file_id f = id)
        /\ (exists r, In (InsertRun r) (events (serve calls empty_world)))).
Proof.
  destruct (reachable_trail calls) as (_ & Htr & _).
  split.
  - intros id text language duration status Hin.
    destruct (trace_ok_In _ _ Htr Hin) as (newer & older & Heq & H). exact H.
  - intros id status Hin.
    destruct (trace_ok_In _ _ Htr Hin)
      as (newer & older & Heq & Hst & (f & Hf & Hid) & (r & Hr)).
    split; [exact Hst |]. split.
    + exists f. split; [| exact Hid].
      rewrite Heq. apply in_or_app. right. right. exact Hf.
    + exists r. rewrite Heq. apply in_or_app. right. right. exact Hr.
Qed.

(** A download of Unicode white space only is blank: the task gets the
    mock transcript, not the downloaded bytes. *)
Example unicode_blank_download_is_mocked :
  all_space Samples.unicode_blank = true
  /\ option_map (fun res => input_text (tr_task res))
       (match fst (post_api_transcribe_and_route
                     Samples.transcribe_blank_download Samples.resume
                     Samples.uploaded) with
        | Ok200 res => Some res
        | Failure _ _ => None
        end)
     = Some (Some ("Mock transcript for call.rec.mp3 stored at raw/u-1.mp3."
                   ++ newline
                   ++ "This simulates a real transcript generated from the uploaded file.")%string).
Proof. split; reflexivity. Qed.

Lemma event_ok_status (older : list Event) (e : Event) :
  event_ok older e -> Schema.status_in_schema e = true.
Proof.
  destruct e; cbn [event_ok Schema.status_in_schema]; try reflexivity.
  - intros [-> _]. reflexivity.
  - intros [-> _]. reflexivity.
  - intros [_ ->]. reflexivity.
  - intros [-> _]. reflexivity.
  - intros [-> _]. reflexivity.
Qed.

(** Every status the handlers write is a value of the enumeration the
    schema gives its column: ['completed'] for a task, ['uploaded'] and
    ['ready'] for a file, ['processing'] and ['ready'] for a transcript. *)
Theorem written_statuses_fit_schema (calls : list Call) :
  forallb Schema.status_in_schema (events (serve calls empty_world)) = true.
Proof.
  destruct (reachable_trail calls) as (_ & Htr & _).
  induction (events (serve calls empty_world)) as [| e older IH];
    [reflexivity |].
  cbn [forallb trace_ok] in *. destruct Htr as [He Hold].
  rewrite (event_ok_status older e He), (IH Hold). reflexivity.
Qed.

(** ** POST /api/upload and POST /api/transcribe-and-route, case by case *)

(** What one upload of a file answers and leaves behind, by the answers of
    the collaborators. *)
Lemma post_api_upload_cases (env : UploadEnv) (file : MulterFile) (w : World) :
  let n := next_id w in
  let path :=
    ("raw/" ++ randomUUID env ++ "."
     ++ last_segment EmptyString (originalname file))%string in
  let fileRow :=
    mkUploadedFileRow n (originalname file) (mimetype file) path "uploaded" in
  let transcriptRow := mkTranscriptRow (S n) n "processing" in
  let in_storage := StorageUpload path (buffer file) (mimetype file) :: events w in
  let stored :=
    mkWorld (InsertTranscript transcriptRow :: InsertFile fileRow :: in_storage)
      (S (S n)) in
  post_api_upload env (Some file) w =
  match storage_upload_error env with
  | Some m => (Failure 500 m, record (ConsoleError m) w)
  | None =>
      match files_insert_error env with
      | Some m => (Failure 500 m, mkWorld (ConsoleError m :: in_storage) n)
      | None =>
          match transcripts_insert_error env with
          | Some m =>
              (Failure 500 m,
               mkWorld (ConsoleError m :: InsertFile fileRow :: in_storage) (S n))
          | None =>
              match truthy (N8N_FILE_WEBHOOK_URL env) with
              | None => (Ok200 (mkUploadOk fileRow (Some transcriptRow)), stored)
              | Some url =>
                  match fetch_outcome env with
                  | Resolved _ =>
                      (Ok200 (mkUploadOk fileRow (Some transcriptRow)),
                       record (WebhookPost url n (S n)) stored)
                  | Rejected m =>
                      (Failure 500 m, record (ConsoleError m) stored)
                  end
              end
          end
      end
  end.
Proof.
  destruct env as [u e1 e2 e3 hook out], w as [evs n].
  unfold post_api_upload, try_catch, post_api_upload_body, storage_upload,
    fetch_post, bind, ret, throw, db_insert, db_update, field_of, record.
  destruct e1, e2, e3; cbn -[last_segment append truthy]; try reflexivity.
  destruct (truthy hook); [destruct out |]; reflexivity.
Qed.

(** What one resume answers and leaves behind once the file row was found
    and its content downloaded, by the answers of the store. *)
Lemma post_api_transcribe_and_route_cases
    (env : TranscribeEnv) (fileId transcriptId : Id) (w : World)
    (fileRow : UploadedFileRow) (text : string) :
  files_select_error env = None ->
  find_file fileId (events w) = Some fileRow ->
  download_error env = None ->
  download_text env = Some text ->
  let transcriptText :=
    if all_space text
    then ("Mock transcript for " ++ file_name fileRow ++ " stored at "
          ++ storage_path fileRow ++ "." ++ newline
          ++ "This simulates a real transcript generated from the uploaded file.")%string
    else text in
  let n := next_id w in
  let task :=
    mkTaskRow n "summary" "high_quality" (Some transcriptText) 100
      (Some transcriptId) in
  let routing := routeTask (mkRouteInput "summary" "high_quality" 100) in
  let d := decision_row n routing (S n) in
  let filled :=
    UpdateTranscript transcriptId transcriptText "en" 3600 "ready" :: events w in
  let failed (message : string) (evs : list Event) (next : Id) :=
    (Failure 500 message,
     mkWorld
       (ConsoleError ("transcribe-and-route error: " ++ message)%string :: evs)
       next) in
  post_api_transcribe_and_route env
    (mkTranscribeBody (Some fileId) (Some transcriptId)) w =
  match transcripts_update_error env with
  | Some m => failed ("Transcript update failed: " ++ m)%string (events w) n
  | None =>
      match tr_tasks_insert_error env with
      | Some m => failed ("Task insert failed: " ++ m)%string filled n
      | None =>
          match tr_decisions_insert_error env with
          | Some m =>
              failed ("Routing decision insert failed: " ++ m)%string
                (InsertTask task :: filled) (S n)
          | None =>
              match tr_runs_insert_error env with
              | Some m =>
                  failed ("Model run insert failed: " ++ m)%string
                    (InsertDecision d :: InsertTask task :: filled) (S (S n))
              | None =>
                  let ran :=
                    mkWorld
                      (InsertRun
                         (run_row n routing
                            (estimatedLatencyMs routing + tr_jitter env)
                            (estimatedCostCents routing) (S (S n)))
                       :: InsertDecision d :: InsertTask task :: filled)
                      (S (S (S n))) in
                  (Ok200 (mkTranscribeOk "ok" task (Some d)),
                   match files_update_error env with
                   | Some _ => ran
                   | None => record (UpdateFileStatus fileId "ready") ran
                   end)
              end
          end
      end
  end.
Proof.
  destruct env as [e1 e2 dl e3 e4 e5 e6 e7 j], w as [evs n].
  cbn [files_select_error download_error download_text events next_id].
  intros -> Hfind -> ->. cbv zeta.
  unfold post_api_transcribe_and_route, try_catch,
    post_api_transcribe_and_route_body, call_routeTask, select_file,
    bind, ret, throw, db_insert, db_update, field_of, console_error, record.
  cbn -[routeTask all_space append]. rewrite Hfind.
  destruct e3, e4, e5, e6, e7; reflexivity.
Qed.

(** ** The extension of an uploaded file *)

Import FileNames.

Lemma append_assoc (a b c : string) :
  ((a ++ b) ++ c = a ++ (b ++ c))%string.
Proof. induction a as [| x a IH]; cbn; [reflexivity | now rewrite IH]. Qed.

Lemma last_segment_dotless (acc s : string) :
  dotless s = true -> Upload.last_segment acc s = (acc ++ s)%string.
Proof.
  revert acc. induction s as [| c s IH]; intros acc; cbn [dotless last_segment].
  - intros _. induction acc as [| x acc IHa]; cbn; [reflexivity | now rewrite <- IHa].
  - destruct (Ascii.eqb c "."%char); cbn [negb andb]; [discriminate |].
    intros Hs. rewrite (IH _ Hs), append_assoc. reflexivity.
Qed.

Lemma last_segment_after_dot (acc stem rest : string) :
  Upload.last_segment acc (stem ++ String "."%char rest)
  = Upload.last_segment EmptyString rest.
Proof.
  revert acc. induction stem as [| c stem IH]; intros acc;
    cbn [append last_segment].
  - reflexivity.
  - destruct (Ascii.eqb c "."%char); apply IH.
Qed.

Lemma last_segment_has_no_dot (acc s : string) :
  dotless acc = true -> dotless (Upload.last_segment acc s) = true.
Proof.
  revert acc. induction s as [| c s IH]; intros acc Hacc; cbn [last_segment].
  - exact Hacc.
  - destruct (Ascii.eqb c "."%char) eqn:Hc; apply IH; [reflexivity |].
    clear IH. induction acc as [| x acc IHa]; cbn [append dotless] in *.
    + rewrite Hc. reflexivity.
    + apply andb_true_iff in Hacc. destruct Hacc as [Hx Hacc].
      rewrite Hx, (IHa Hacc). reflexivity.
Qed.

(** The extension the upload handler gives the stored object is what
    follows the last dot of the original name: for a name [stem.ext] with
    no dot in [ext] it is [ext], for a name without any dot it is the
    whole name, and it never contains a dot itself. *)
Theorem extension_is_after_last_dot :
  (forall stem ext,
     dotless ext = true ->
     Upload.last_segment EmptyString (stem ++ String "."%char ext) = ext)
  /\ (forall name,
        dotless name = true -> Upload.last_segment EmptyString name = name)
  /\ (forall name, dotless (Upload.last_segment EmptyString name) = true).
Proof.
  split; [| split].
  - intros stem ext Hext. rewrite last_segment_after_dot.
    apply (last_segment_dotless EmptyString ext Hext).
  - intros name Hname. apply (last_segment_dotless EmptyString name Hname).
  - intros name. apply last_segment_has_no_dot. reflexivity.
Qed.

(** ** GET /api/routing-decisions *)




(** Write, then read: when POST /api/tasks answers with a 200, the listing
    asked right after it shows the decision of that answer first, joined
    with the task of that answer. *)
Theorem listing_starts_with_the_new_decision
    (env : TasksEnv) (body : TasksBody) (w : World) (ok : TasksOk) :
  fst (post_api_tasks env body w) = Ok200 ok ->
  exists d later,
    ok_decision ok = Some d
    /\ fst (Listing.get_api_routing_decisions None
              (snd (post_api_tasks env body w)))
       = Ok200 (Some (Listing.mkDecisionWithTask d (Some (ok_task ok)) :: later)).
Proof.
  rewrite post_api_tasks_cases.
  destruct (tasks_insert_error env); [discriminate |].
  destruct (decisions_insert_error env); [discriminate |].
  cbv zeta. cbn [fst snd]. intros Hok. injection Hok as <-.
  cbn [ok_decision ok_task]. eexists. eexists. split; [reflexivity |].
  unfold Listing.get_api_routing_decisions, Listing.select_decisions.
  destruct (runs_insert_error env), (tasks_update_error env);
    cbn -[routeTask firstn]; rewrite Nat.eqb_refl; cbn [firstn]; reflexivity.
Qed.

Lemma listing_starts_with_the_new_decision_witness :
  exists d later,
    Some (decision_row 0%nat
            (routeTask (mkRouteInput "summary" "high_quality" 40)) 1%nat)
    = Some d
    /\ fst (Listing.get_api_routing_decisions None
              (snd (post_api_tasks Samples.all_succeed Samples.summary_request
                      empty_world)))
       = Ok200
           (Some
              (Listing.mkDecisionWithTask d
                 (Some (task_row Samples.summary_request 0%nat)) :: later)).
Proof.
  exact (listing_starts_with_the_new_decision Samples.all_succeed
           Samples.summary_request empty_world
           (mkTasksOk (task_row Samples.summary_request 0%nat)
              (Some (decision_row 0%nat
                       (routeTask (mkRouteInput "summary" "high_quality" 40))
                       1%nat))
              (routeTask (mkRouteInput "summary" "high_quality" 40)))
           eq_refl).
Defined.

(** ** POST /api/transcribe-and-route *)

(** No identifier of the trace's audit rows reaches the next key. *)
Lemma next_task_not_completed (w : World) :
  trail_ok w -> marked_completed (next_id w) (events w) = false.
Proof.
  intros ((_ & Hd & _) & Htr & _).
  destruct (marked_completed (next_id w) (events w)) eqn:Hm; [| reflexivity].
  exfalso. unfold marked_completed in Hm. apply existsb_exists in Hm.
  destruct Hm as (e & Hin & He). destruct e; try discriminate He.
  apply andb_true_iff in He. destruct He as [Hid _].
  apply Nat.eqb_eq in Hid. subst id.
  destruct (trace_ok_In _ _ Htr Hin) as (newer & older & Heq & _ & Hne).
  apply decisions_of_found in Hne. destruct Hne as (d & Hdin & Hdt).
  assert (Hlt : (decision_task_id d < next_id w)%nat).
  { apply Hd. rewrite Heq. apply in_or_app. right. right. exact Hdin. }
  lia.
Qed.

Lemma transcribe_marks_nothing
    (env : TranscribeEnv) (body : TranscribeBody) (w : World) (id : Id) :
  marked_completed id (events (snd (post_api_transcribe_and_route env body w)))
  = marked_completed id (events w).
Proof.
  destruct w as [evs n].
  destruct env as [e1 e2 dl e3 e4 e5 e6 e7 j], body as [fid tid].
  unfold post_api_transcribe_and_route, try_catch,
    post_api_transcribe_and_route_body, call_routeTask, select_file,
    bind, ret, throw, db_insert, db_update, field_of, console_error, record.
  destruct fid as [fileId |], tid as [transcriptId |];
    cbn -[routeTask all_space append marked_completed]; try reflexivity.
  destruct e1; cbn -[routeTask all_space append marked_completed];
    [reflexivity |].
  destruct (find_file fileId evs);
    cbn -[routeTask all_space append marked_completed]; [| reflexivity].
  destruct e2, dl; cbn -[routeTask all_space append marked_completed];
    try reflexivity.
  destruct e3, e4, e5, e6, e7;
    cbn -[routeTask all_space append marked_completed]; reflexivity.
Qed.

Lemma transcribe_task_key
    (env : TranscribeEnv) (body : TranscribeBody) (w : World)
    (res : TranscribeOk) :
  fst (post_api_transcribe_and_route env body w) = Ok200 res ->
  task_id (tr_task res) = next_id w.
Proof.
  destruct w as [evs n].
  destruct env as [e1 e2 dl e3 e4 e5 e6 e7 j], body as [fid tid].
  unfold post_api_transcribe_and_route, try_catch,
    post_api_transcribe_and_route_body, call_routeTask, select_file,
    bind, ret, throw, db_insert, db_update, field_of, console_error, record.
  destruct fid as [fileId |], tid as [transcriptId |];
    cbn -[routeTask all_space append]; try discriminate.
  destruct e1; cbn -[routeTask all_space append]; [discriminate |].
  destruct (find_file fileId evs); cbn -[routeTask all_space append];
    [| discriminate].
  destruct e2, dl; cbn -[routeTask all_space append]; try discriminate.
  destruct e3, e4, e5, e6, e7; cbn -[routeTask all_space append];
    try discriminate; intros H; injection H as <-; reflexivity.
Qed.

(** The resume entry point never marks a task completed: whatever it is
    sent and whatever the collaborators answer, the tasks marked completed
    after the call are those marked before it, and the task of a
    successful answer is stored but left with the status it was created
    with. *)
Theorem transcribe_never_completes_a_task
    (calls : list Call) (env : TranscribeEnv) (body : TranscribeBody) :
  let w := serve calls empty_world in
  let after := snd (post_api_transcribe_and_route env body w) in
  (forall id, marked_completed id (events after) = marked_completed id (events w))
  /\ (forall res,
        fst (post_api_transcribe_and_route env body w) = Ok200 res ->
        marked_completed (task_id (tr_task res)) (events after) = false).
Proof.
  cbv zeta. split; [intros id; apply transcribe_marks_nothing |].
  intros res Hres. rewrite transcribe_marks_nothing.
  rewrite (transcribe_task_key env body _ res Hres).
  apply next_task_not_completed. apply reachable_trail.
Qed.

Lemma post_api_transcribe_and_route_handler_parsed
    (env : TranscribeEnv) (body : TranscribeBody) (w : World) :
  post_api_transcribe_and_route_handler env (Some body) w
  = post_api_transcribe_and_route env body w.
Proof. reflexivity. Qed.

(** The resume entry point refuses before it writes.  A request whose body
    was not parsed makes the destructuring throw: it is answered with
    status 500 and leaves nothing but the logged error.  A parsed body
    without a file or transcript identifier is answered with status 400
    and leaves the world as it was; a failing file lookup, a file row that
    does not exist, a failing download or a download without data is
    answered with status 500 and leaves nothing but the logged error. *)
Theorem transcribe_refuses_before_writing
    (env : TranscribeEnv) (req_body : option TranscribeBody) (w : World) :
  (req_body = None ->
   post_api_transcribe_and_route_handler env req_body w
   = (Failure 500
        "Cannot destructure property 'fileId' of 'req.body' as it is undefined.",
      record
        (ConsoleError
           "transcribe-and-route error: Cannot destructure property 'fileId' of 'req.body' as it is undefined.")
        w))
  /\ (forall body,
        req_body = Some body ->
        body_fileId body = None \/ body_transcript body = None ->
        post_api_transcribe_and_route_handler env req_body w
        = (Failure 400 "fileId and transcriptId are required", w))
  /\ (forall fileId transcriptId,
        req_body = Some (mkTranscribeBody (Some fileId) (Some transcriptId)) ->
        files_select_error env <> None
        \/ find_file fileId (events w) = None
        \/ download_error env <> None
        \/ download_text env = None ->
        exists message,
          post_api_transcribe_and_route_handler env req_body w
          = (Failure 500 message,
             record
               (ConsoleError ("transcribe-and-route error: " ++ message)%string)
               w)).
Proof.
  split; [intros ->; reflexivity |].
  destruct w as [evs n].
  destruct env as [e1 e2 dl e3 e4 e5 e6 e7 j].
  cbn [files_select_error download_error download_text events next_id].
  split.
  - intros body -> Hmissing. rewrite post_api_transcribe_and_route_handler_parsed.
    destruct body as [[fileId |] [transcriptId |]];
      cbn [body_fileId body_transcript] in Hmissing; try reflexivity.
    destruct Hmissing as [H | H]; discriminate H.
  - intros fileId transcriptId -> Hwhy.
    rewrite post_api_transcribe_and_route_handler_parsed.
    unfold post_api_transcribe_and_route, try_catch,
      post_api_transcribe_and_route_body, call_routeTask, select_file,
      bind, ret, throw, db_insert, db_update, field_of, console_error, record.
    cbn -[routeTask all_space append].
    destruct e1; cbn -[routeTask all_space append];
      [eexists; reflexivity |].
    destruct (find_file fileId evs); cbn -[routeTask all_space append];
      [| eexists; reflexivity].
    destruct e2; cbn -[routeTask all_space append]; [eexists; reflexivity |].
    destruct dl; cbn -[routeTask all_space append]; [| eexists; reflexivity].
    exfalso. destruct Hwhy as [H | [H | [H | H]]];
      first [discriminate H | now apply H].
Qed.

(** ** Measured latency *)

Lemma run_row_measures (task : Id) (input : RouteInput) (j cost : Z) (id : Id) :
  0 <= j <= 200 ->
  run_measures_ok
    (run_row task (routeTask input)
       (estimatedLatencyMs (routeTask input) + j) cost id).
Proof.
  intros Hj. destruct (routeTask_estimates input) as [_ Hl].
  remember (routeTask input) as out. unfold run_measures_ok, run_row.
  cbn [run_model latency_ms token_input token_output].
  rewrite Hl. repeat split; lia.
Qed.

Ltac new_run H :=
  cbn [In events snd record] in H;
  repeat (destruct H as [H | H]; [try discriminate H |]);
  first
    [ left; exact H
    | right;
      match type of H with
      | InsertRun ?x = InsertRun ?y =>
          let Hr := fresh "Hr" in
          assert (Hr : x = y) by congruence; rewrite <- Hr
      end;
      first [ apply run_row_measures; assumption
            | unfold run_measures_ok; cbn; repeat split; lia ] ].

Lemma step_runs_measured (c : Call) (w : World) (r : RunRow) :
  jitter_in_range (call_jitter c) ->
  In (InsertRun r) (events (step c w)) ->
  In (InsertRun r) (events w) \/ run_measures_ok r.
Proof.
  unfold jitter_in_range. destruct w as [evs n].
  destruct c as [env body | env body | env file]; cbn [step call_jitter].
  - intros Hj. rewrite post_api_tasks_cases. cbv zeta.
    destruct (tasks_insert_error env), (decisions_insert_error env),
      (runs_insert_error env), (tasks_update_error env);
      intros H; new_run H.
  - destruct env as [e1 e2 dl e3 e4 e5 e6 e7 j], body as [fid tid].
    cbn [tr_jitter]. intros Hj.
    unfold post_api_transcribe_and_route, try_catch,
      post_api_transcribe_and_route_body, call_routeTask, select_file,
      bind, ret, throw, db_insert, db_update, field_of, console_error, record.
    destruct fid as [fileId |], tid as [transcriptId |];
      cbn -[routeTask all_space append In Z.add]; try (intros H; new_run H).
    destruct e1; cbn -[routeTask all_space append In Z.add];
      [intros H; new_run H |].
    destruct (find_file fileId evs); cbn -[routeTask all_space append In Z.add];
      [| intros H; new_run H].
    destruct e2, dl; cbn -[routeTask all_space append In Z.add];
      try (intros H; new_run H).
    destruct e3, e4, e5, e6, e7; cbn -[routeTask all_space append In Z.add];
      intros H; new_run H.
  - intros _. destruct file as [file |]; [| intros H; left; exact H].
    rewrite post_api_upload_cases. cbv zeta.
    destruct (storage_upload_error env), (files_insert_error env),
      (transcripts_insert_error env), (truthy (N8N_FILE_WEBHOOK_URL env)),
      (fetch_outcome env); intros H; new_run H.
Qed.

(** When every jitter drawn lies between 0 and 200, as the rounding of
    [Math.random() * 200] does, every execution record stored after any
    sequence of requests has a latency between the catalog latency of its
    model and 200 ms more, and the token counters 500 and 200. *)
Theorem runs_are_measured_within_jitter (calls : list Call) (r : RunRow) :
  Forall (fun c => jitter_in_range (call_jitter c)) calls ->
  In (InsertRun r) (events (serve calls empty_world)) ->
  run_measures_ok r.
Proof.
  intros Hj.
  assert (Hgen : forall w,
             (In (InsertRun r) (events w) -> run_measures_ok r) ->
             In (InsertRun r) (events (serve calls w)) -> run_measures_ok r).
  { induction Hj as [| c calls Hc Hcs IH]; intros w Hw; [exact Hw |].
    cbn [serve fold_left]. apply IH. intros Hin.
    destruct (step_runs_measured c w r Hc Hin) as [Hold | Hnew];
      [apply Hw; exact Hold | exact Hnew]. }
  apply Hgen. intros [].
Qed.

Lemma runs_are_measured_within_jitter_witness :
  run_measures_ok
    (run_row 0%nat (routeTask (mkRouteInput "summary" "high_quality" 40))
       1817 40 2%nat).
Proof.
  apply (runs_are_measured_within_jitter
           [PostTasks Samples.all_succeed Samples.summary_request]).
  - constructor; [| constructor]. unfold jitter_in_range. cbn. lia.
  - cbn. auto.
Defined.

(** ** POST /api/upload *)

(** An upload is answered with a 200 exactly when the storage upload and
    the two inserts succeed and the notification, if a webhook is
    configured, is answered; a request without a file is answered with
    status 400 and changes nothing. *)
Theorem upload_succeeds_iff (env : UploadEnv) (file : MulterFile) (w : World) :
  (is_ok (fst (post_api_upload env (Some file) w)) = true
   <-> storage_upload_error env = None
       /\ files_insert_error env = None
       /\ transcripts_insert_error env = None
       /\ (truthy (N8N_FILE_WEBHOOK_URL env) = None
           \/ exists status, fetch_outcome env = Resolved status))
  /\ post_api_upload env None w = (Failure 400 "No file uploaded", w).
Proof.
  split; [| reflexivity].
  rewrite post_api_upload_cases. cbv zeta.
  destruct (storage_upload_error env), (files_insert_error env),
    (transcripts_insert_error env), (truthy (N8N_FILE_WEBHOOK_URL env)),
    (fetch_outcome env) as [status | message]; cbn [fst is_ok];
    split;
    try discriminate;
    try (intros (H1 & H2 & H3 & H4); try discriminate;
         destruct H4 as [H4 | [st H4]]; discriminate);
    intros _; repeat split; eauto.
Qed.

(** Nothing an upload wrote is taken back when a later step fails: the
    stored object stays once the storage upload succeeded, and the file
    row stays once its insert succeeded, also when the request ends with
    status 500; only a failing storage upload leaves nothing but the
    logged error. *)
Theorem upload_keeps_what_it_wrote
    (env : UploadEnv) (file : MulterFile) (w : World) :
  let after := snd (post_api_upload env (Some file) w) in
  let path :=
    ("raw/" ++ randomUUID env ++ "."
     ++ last_segment EmptyString (originalname file))%string in
  (forall m, storage_upload_error env = Some m ->
     after = record (ConsoleError m) w)
  /\ (storage_upload_error env = None ->
      In (StorageUpload path (buffer file) (mimetype file)) (events after))
  /\ (storage_upload_error env = None -> files_insert_error env = None ->
      In (InsertFile
            (mkUploadedFileRow (next_id w) (originalname file) (mimetype file)
               path "uploaded"))
         (events after))
  /\ (forall e, In e (events w) -> In e (events after)).
Proof.
  cbv zeta. rewrite post_api_upload_cases. cbv zeta.
  repeat split.
  - intros m ->. reflexivity.
  - intros ->.
    destruct (files_insert_error env), (transcripts_insert_error env),
      (truthy (N8N_FILE_WEBHOOK_URL env)), (fetch_outcome env);
      cbn [snd record events In]; auto 8.
  - intros -> ->.
    destruct (transcripts_insert_error env),
      (truthy (N8N_FILE_WEBHOOK_URL env)), (fetch_outcome env);
      cbn [snd record events In]; auto 8.
  - intros e He.
    destruct (storage_upload_error env), (files_insert_error env),
      (transcripts_insert_error env), (truthy (N8N_FILE_WEBHOOK_URL env)),
      (fetch_outcome env);
      cbn [snd record events In]; auto 8.
Qed.

(** Without a webhook in the environment (the variable unset or empty) an
    upload sends no notification: what [fetch] would have done has no
    effect on the answer or on what is stored, and no webhook post is
    recorded. *)
Theorem upload_without_webhook_is_silent
    (env : UploadEnv) (file : option MulterFile) (w : World)
    (other : FetchOutcome) :
  truthy (N8N_FILE_WEBHOOK_URL env) = None ->
  post_api_upload env file w
  = post_api_upload
      (mkUploadEnv (randomUUID env) (storage_upload_error env)
         (files_insert_error env) (transcripts_insert_error env)
         (N8N_FILE_WEBHOOK_URL env) other)
      file w
  /\ (forall url fileId transcriptId,
        In (WebhookPost url fileId transcriptId)
          (events (snd (post_api_upload env file w))) ->
        In (WebhookPost url fileId transcriptId) (events w)).
Proof.
  intros Hurl. destruct file as [file |]; [| split; [reflexivity | auto]].
  rewrite !post_api_upload_cases. cbv zeta.
  cbn [randomUUID storage_upload_error files_insert_error
       transcripts_insert_error N8N_FILE_WEBHOOK_URL fetch_outcome].
  rewrite Hurl. split; [reflexivity |].
  intros url fileId transcriptId.
  destruct (storage_upload_error env), (files_insert_error env),
    (transcripts_insert_error env); cbn [snd record events In];
    intros H;
    repeat (destruct H as [H | H]; [discriminate H |]); exact H.
Qed.

Lemma upload_without_webhook_is_silent_witness :
  post_api_upload
    (mkUploadEnv "u-1" None None None (Some EmptyString) (Rejected "fetch failed"))
    (Some Samples.recording) empty_world
  = post_api_upload
      (mkUploadEnv "u-1" None None None (Some EmptyString) (Resolved 200))
      (Some Samples.recording) empty_world.
Proof.
  apply (upload_without_webhook_is_silent
           (mkUploadEnv "u-1" None None None (Some EmptyString)
              (Rejected "fetch failed"))
           (Some Samples.recording) empty_world (Resolved 200)).
  reflexivity.
Defined.

(** ** From upload to resume *)

(** Upload, then resume: when an upload was answered with a 200, a resume
    for the identifiers of that answer finds the file row; if the download
    and the store calls succeed it is answered with a 200, and the task it
    creates belongs to the uploaded transcript, has tier high_quality and
    ceiling 100, and is routed to [gpt_4_1] at the estimated cost 40. *)
Theorem resume_after_upload_routes_to_gpt_4_1
    (uenv : UploadEnv) (file : MulterFile) (w : World) (up : UploadOk)
    (tenv : TranscribeEnv) (text : string) :
  fst (post_api_upload uenv (Some file) w) = Ok200 up ->
  files_select_error tenv = None ->
  download_error tenv = None ->
  download_text tenv = Some text ->
  transcripts_update_error tenv = None ->
  tr_tasks_insert_error tenv = None ->
  tr_decisions_insert_error tenv = None ->
  tr_runs_insert_error tenv = None ->
  exists tr res d,
    up_transcript up = Some tr
    /\ transcript_file_id tr = file_id (up_file up)
    /\ fst (post_api_transcribe_and_route tenv
              (mkTranscribeBody (Some (file_id (up_file up)))
                 (Some (transcript_row_id tr)))
              (snd (post_api_upload uenv (Some file) w)))
       = Ok200 res
    /\ transcript_id (tr_task res) = Some (transcript_row_id tr)
    /\ task_sla (tr_task res) = "high_quality"
    /\ max_cost_cents (tr_task res) = 100
    /\ tr_decision res = Some d
    /\ decision_task_id d = task_id (tr_task res)
    /\ chosen_model d = gpt_4_1
    /\ estimated_cost_cents d = 40.
Proof.
  intros Hup H1 H2 H3 H4 H5 H6 H7.
  rewrite post_api_upload_cases in Hup |- *. cbv zeta in Hup |- *.
  destruct (storage_upload_error uenv); [discriminate |].
  destruct (files_insert_error uenv); [discriminate |].
  destruct (transcripts_insert_error uenv); [discriminate |].
  destruct (truthy (N8N_FILE_WEBHOOK_URL uenv));
    [destruct (fetch_outcome uenv); [| discriminate] |];
    cbn [fst] in Hup; injection Hup as <-;
    cbn [up_transcript up_file file_id transcript_row_id snd];
    do 3 eexists;
    (split; [reflexivity |]); (split; [reflexivity |]);
    (erewrite post_api_transcribe_and_route_cases;
     [ rewrite H4, H5, H6, H7; cbn [fst tr_task tr_decision];
       repeat split
     | exact H1
     | cbn [events record find_file file_id]; rewrite Nat.eqb_refl; reflexivity
     | exact H2
     | exact H3 ]).
Qed.

Lemma resume_after_upload_routes_to_gpt_4_1_witness :
  exists tr res d,
    Some (mkTranscriptRow 1%nat 0%nat "processing") = Some tr
    /\ transcript_file_id tr = 0%nat
    /\ fst (post_api_transcribe_and_route Samples.transcribe_succeeds
              (mkTranscribeBody (Some 0%nat) (Some (transcript_row_id tr)))
              Samples.uploaded)
       = Ok200 res
    /\ transcript_id (tr_task res) = Some (transcript_row_id tr)
    /\ task_sla (tr_task res) = "high_quality"
    /\ max_cost_cents (tr_task res) = 100
    /\ tr_decision res = Some d
    /\ decision_task_id d = task_id (tr_task res)
    /\ chosen_model d = gpt_4_1
    /\ estimated_cost_cents d = 40.
Proof.
  exact (resume_after_upload_routes_to_gpt_4_1 Samples.webhook_answers_500
           Samples.recording empty_world
           (mkUploadOk
              (mkUploadedFileRow 0%nat "call.rec.mp3" "audio/mpeg"
                 "raw/u-1.mp3" "uploaded")
              (Some (mkTranscriptRow 1%nat 0%nat "processing")))
           Samples.transcribe_succeeds "the text"
           eq_refl eq_refl eq_refl eq_refl eq_refl eq_refl eq_refl eq_refl).
Defined.

(** ** POST /api/tasks is not atomic *)

Lemma runs_of_found (t : Id) (evs : list Event) :
  runs_of t evs <> [] -> exists r, In (InsertRun r) evs /\ run_task_id r = t.
Proof.
  induction evs as [| e rest IH]; [intros H; now elim H |].
  cbn [runs_of flat_map]. fold (runs_of t rest). intros H.
  assert (Hrest : runs_of t rest <> [] ->
                  exists r, In (InsertRun r) (e :: rest) /\ run_task_id r = t).
  { intros Hne. destruct (IH Hne) as (r & Hin & Hr).
    exists r. split; [right; exact Hin | exact Hr]. }
  destruct e; try (apply Hrest; exact H).
  destruct (Nat.eqb_spec (run_task_id row) t) as [Heq | Hneq].
  - exists row. split; [left; reflexivity | exact Heq].
  - apply Hrest. exact H.
Qed.

Lemma next_task_has_no_run (w : World) :
  trail_ok w -> runs_of (next_id w) (events w) = [].
Proof.
  intros ((_ & Hd & _) & Htr & _).
  destruct (runs_of (next_id w) (events w)) as [| first rest] eqn:Hr;
    [reflexivity |].
  exfalso.
  assert (Hne : runs_of (next_id w) (events w) <> []) by (rewrite Hr; discriminate).
  apply runs_of_found in Hne. destruct Hne as (run & Hin & Hid).
  destruct (trace_ok_In _ _ Htr Hin)
    as (newer & older & Heq & d & Hdin & Hsame & _).
  assert (Hlt : (decision_task_id d < next_id w)%nat).
  { apply Hd. rewrite Heq. apply in_or_app. right. right. exact Hdin. }
  lia.
Qed.

(** A request to POST /api/tasks that fails half way leaves its first
    half behind.  After any sequence of requests: when the insert of the
    routing decision fails, the caller gets status 500 but the new task
    row stays stored, with no decision, no execution record and never
    marked completed; when only the final status update fails, the caller
    still gets a 200, with decision and execution record stored, and the
    task is not marked completed. *)
Theorem tasks_request_is_not_atomic
    (calls : list Call) (env : TasksEnv) (body : TasksBody) :
  let w := serve calls empty_world in
  let n := next_id w in
  let after := events (snd (post_api_tasks env body w)) in
  tasks_insert_error env = None ->
  (forall e, decisions_insert_error env = Some e ->
     fst (post_api_tasks env body w) = Failure 500 e
     /\ In (InsertTask (task_row body n)) after
     /\ decisions_of n after = []
     /\ runs_of n after = []
     /\ marked_completed n after = false)
  /\ (forall e, decisions_insert_error env = None ->
        runs_insert_error env = None ->
        tasks_update_error env = Some e ->
        is_ok (fst (post_api_tasks env body w)) = true
        /\ List.length (decisions_of n after) = 1%nat
        /\ List.length (runs_of n after) = 1%nat
        /\ marked_completed n after = false).
Proof.
  cbv zeta. intros H1.
  pose proof (reachable_trail calls) as Hok.
  set (w := serve calls empty_world) in *.
  pose proof (next_task_not_completed w Hok) as Hc.
  pose proof (next_task_has_no_run w Hok) as Hr.
  assert (Hd : decisions_of (next_id w) (events w) = []).
  { destruct Hok as (Hw & _).
    apply (fresh_undecided (next_id w) (events w) Hw). lia. }
  rewrite post_api_tasks_cases, H1. cbv zeta.
  split.
  - intros e ->. cbn [fst snd events].
    cbn [In decisions_of runs_of flat_map marked_completed existsb app orb].
    fold (decisions_of (next_id w) (events w)).
    fold (runs_of (next_id w) (events w)).
    fold (marked_completed (next_id w) (events w)).
    repeat split; auto.
  - intros e -> -> ->. cbn [fst snd events is_ok].
    cbn [decisions_of runs_of flat_map marked_completed existsb app orb
         decision_row decision_task_id run_row run_task_id].
    fold (decisions_of (next_id w) (events w)).
    fold (runs_of (next_id w) (events w)).
    fold (marked_completed (next_id w) (events w)).
    rewrite Nat.eqb_refl, Hd, Hr, Hc. repeat split.
Qed.

Lemma tasks_request_is_not_atomic_witness :
  fst (post_api_tasks (mkTasksEnv None (Some "insert failed") None None 17)
         Samples.summary_request (serve [] empty_world))
  = Failure 500 "insert failed"
  /\ In (InsertTask (task_row Samples.summary_request 0%nat))
       (events (snd (post_api_tasks
                       (mkTasksEnv None (Some "insert failed") None None 17)
                       Samples.summary_request (serve [] empty_world))))
  /\ decisions_of 0%nat
       (events (snd (post_api_tasks
                       (mkTasksEnv None (Some "insert failed") None None 17)
                       Samples.summary_request (serve [] empty_world)))) = []
  /\ runs_of 0%nat
       (events (snd (post_api_tasks
                       (mkTasksEnv None (Some "insert failed") None None 17)
                       Samples.summary_request (serve [] empty_world)))) = []
  /\ marked_completed 0%nat
       (events (snd (post_api_tasks
                       (mkTasksEnv None (Some "insert failed") None None 17)
                       Samples.summary_request (serve [] empty_world)))) = false.
Proof.
  exact (proj1 (tasks_request_is_not_atomic []
                  (mkTasksEnv None (Some "insert failed") None None 17)
                  Samples.summary_request eq_refl)
           "insert failed" eq_refl).
Defined.
